(** * go-try: the workspace selector, checked against its specification

    A shallow embedding of the Go packages [workspace], [shell] and [tui] of
    go-try, followed by the properties the specification states about them.

    Go strings are byte sequences and are embedded as [string] (one [ascii]
    per byte).  Go's [int] is the 64-bit signed integer, embedded as [Z] with
    the wrap-around written out.  [float64] is embedded as the primitive
    binary64 [float].  Functions that return [(T, error)] return [Result T];
    functions that touch the file system take and return the [FS] state. *)

From Stdlib Require Import ZArith List String Ascii Bool Lia Floats.
From Stdlib Require Import DecimalString Permutation Sorted.
Import ListNotations.
Open Scope string_scope.

(* ------------------------------------------------------------------ *)
(** ** Go's [strings], [fmt] and [time] helpers used by the program    *)
(* ------------------------------------------------------------------ *)

Module strings.

Fixpoint rev (s : string) : string :=
  match s with
  | "" => ""
  | String c r => rev r ++ String c ""
  end.

(** [strings.CutPrefix]: the rest of [s] after [prefix], when [s] starts
    with it. *)
Fixpoint CutPrefix (s prefix : string) {struct prefix} : option string :=
  match prefix with
  | "" => Some s
  | String a p =>
      match s with
      | "" => None
      | String b r => if Ascii.eqb a b then CutPrefix r p else None
      end
  end.

Definition HasPrefix (s prefix : string) : bool :=
  match CutPrefix s prefix with Some _ => true | None => false end.

Definition HasSuffix (s suffix : string) : bool :=
  HasPrefix (rev s) (rev suffix).

Definition TrimSuffix (s suffix : string) : string :=
  match CutPrefix (rev s) (rev suffix) with
  | Some r => rev r
  | None => s
  end.

(** [strings.ReplaceAll s old new] for a one-byte [old], the only way the
    program calls it. *)
Fixpoint ReplaceAll (s : string) (old : ascii) (new : string) : string :=
  match s with
  | "" => ""
  | String c r =>
      (if Ascii.eqb c old then new else String c "") ++ ReplaceAll r old new
  end.

Definition bytes (l : list nat) : string :=
  string_of_list_ascii (map ascii_of_nat l).

(** The UTF-8 encodings of the runes for which [unicode.IsSpace] holds:
    tab, LF, VT, FF, CR, space, U+0085, U+00A0, U+1680, U+2000..U+200A,
    U+2028, U+2029, U+202F, U+205F, U+3000. *)
Definition whiteSpace : list string :=
  map bytes
    [ [9]; [10]; [11]; [12]; [13]; [32];
      [194; 133]; [194; 160]; [225; 154; 128];
      [226; 128; 128]; [226; 128; 129]; [226; 128; 130]; [226; 128; 131];
      [226; 128; 132]; [226; 128; 133]; [226; 128; 134]; [226; 128; 135];
      [226; 128; 136]; [226; 128; 137]; [226; 128; 138];
      [226; 128; 168]; [226; 128; 169]; [226; 128; 175];
      [226; 129; 159]; [227; 128; 128] ].

(** Removes one leading element of [seqs] from [s], if there is one. *)
Fixpoint cutAny (seqs : list string) (s : string) : option string :=
  match seqs with
  | [] => None
  | w :: ws =>
      match CutPrefix s w with
      | Some r => Some r
      | None => cutAny ws s
      end
  end.

Fixpoint trimLeftSeqs (fuel : nat) (seqs : list string) (s : string) : string :=
  match fuel with
  | O => s
  | S f =>
      match cutAny seqs s with
      | Some r => trimLeftSeqs f seqs r
      | None => s
      end
  end.

Definition TrimLeftSpace (s : string) : string :=
  trimLeftSeqs (String.length s) whiteSpace s.

Definition TrimRightSpace (s : string) : string :=
  rev (trimLeftSeqs (String.length s) (map rev whiteSpace) (rev s)).

(** [strings.TrimSpace]: all leading and trailing white space runes are
    removed (the ASCII fast path and the [unicode.IsSpace] fallback of the
    library agree with this on every byte string). *)
Definition TrimSpace (s : string) : string :=
  TrimRightSpace (TrimLeftSpace s).

(** [strings.Contains]. *)
Fixpoint Contains (s substr : string) : bool :=
  HasPrefix s substr
  || match s with
     | "" => false
     | String _ r => Contains r substr
     end.

End strings.

Module fmt.

(** The verb [%d] on an [int]. *)
Definition d (i : Z) : string := NilZero.string_of_int (Z.to_int i).

Fixpoint zeros (n : nat) : string :=
  match n with O => "" | S k => String "0" (zeros k) end.

End fmt.

(** Go's [int] on the 64-bit platforms the program is built for. *)
Definition wrap64 (x : Z) : Z := ((x + 2 ^ 63) mod 2 ^ 64 - 2 ^ 63)%Z.

Module time.

(** An instant, in nanoseconds since the epoch. *)
Definition Time := Z.

(** [t.After(u)]. *)
Definition After (t u : Time) : bool := (u <? t)%Z.

Definition minDuration : Z := (- 2 ^ 63)%Z.
Definition maxDuration : Z := (2 ^ 63 - 1)%Z.

(** [t.Sub(u)]: the difference as an int64 count of nanoseconds, saturated
    at the ends of the range. *)
Definition Sub (t u : Time) : Z :=
  Z.max minDuration (Z.min maxDuration (t - u)).

Definition Hour : Z := (60 * 60 * 1000000000)%Z.

(** [float64(n)] for an int64 [n] below 2^62 in magnitude. *)
Definition float64 (n : Z) : float :=
  if (n <? 0)%Z
  then PrimFloat.opp (PrimFloat.of_uint63 (Uint63.of_Z (- n)))
  else PrimFloat.of_uint63 (Uint63.of_Z n).

(** [d.Hours()]. *)
Definition Hours (d : Z) : float :=
  let hour := Z.quot d Hour in
  let nsec := Z.rem d Hour in
  (float64 hour + float64 nsec / (60 * 60 * 1e9))%float.

(** The calendar date a call of [time.Now()] falls on, local time. *)
Record Date := { year : Z; month : Z; day : Z }.

(** [appendInt]: sign, then the digits padded with zeros to [width]. *)
Definition appendInt (x : Z) (width : nat) : string :=
  let digits := NilZero.string_of_uint (N.to_uint (Z.to_N (Z.abs x))) in
  (if (x <? 0)%Z then "-" else "")
    ++ fmt.zeros (width - String.length digits) ++ digits.

(** [t.Format("2006-01-02")]. *)
Definition Format (t : Date) : string :=
  appendInt (year t) 4 ++ "-" ++ appendInt (month t) 2 ++ "-"
    ++ appendInt (day t) 2.

End time.

(* ------------------------------------------------------------------ *)
(** ** The operating system as the program sees it                     *)
(* ------------------------------------------------------------------ *)

Module os.

Inductive Errno := ENOENT | EACCES | ENOTDIR | EIO | ELOOP.

(** Go's [error] values the program meets: an [*fs.PathError] from a
    system call, [fmt.Errorf] without and with the wrapping verb [%w]. *)
Inductive error :=
| PathError (op path : string) (errno : Errno)
| Errorf (msg : string)
| Wrapf (msg : string) (cause : error).

Inductive Result (A : Type) :=
| Ok (a : A)
| Err (e : error).
Arguments Ok {A} a.
Arguments Err {A} e.

Definition errOf {A} (r : Result A) : option error :=
  match r with Ok _ => None | Err e => Some e end.

(** [os.IsNotExist(err)]; it is false on [nil] and does not look through
    [%w] wrappers. *)
Definition IsNotExist (err : option error) : bool :=
  match err with
  | Some (PathError _ _ ENOENT) => true
  | _ => false
  end.

Record FileInfo := { fi_IsDir : bool; ModTime : time.Time }.

(** [fs.DirEntry]: the name and type come with the listing, [Info()] is a
    further system call and can fail on its own. *)
Record DirEntry := { Name : string; IsDir : bool; Info : Result FileInfo }.

(** The state of the system: what each read would answer, whether each
    write would fail ([gitCloneErr] gives the text of a failed [git clone]:
    its error and output), and the clock.  A write that succeeds changes
    what [stat] answers for the path it was given, as that path is spelled;
    what it does to parents, to other spellings of the path and to
    modification times is not recorded, and nothing below is stated about
    it. *)
Record FS := {
  readDir : string -> Result (list DirEntry);
  stat : string -> Result FileInfo;
  mkdirAllErr : string -> option error;
  removeAllErr : string -> option error;
  gitCloneErr : string -> string -> option string;
  abs : string -> Result string;
  evalSymlinks : string -> Result string;
  clock : time.Time;
  today : time.Date }.

Definition ReadDir (fs : FS) (name : string) := readDir fs name.
Definition Stat (fs : FS) (name : string) := stat fs name.

Definition withStat (fs : FS) (st : string -> Result FileInfo) : FS :=
  {| readDir := readDir fs; stat := st; mkdirAllErr := mkdirAllErr fs;
     removeAllErr := removeAllErr fs; gitCloneErr := gitCloneErr fs;
     abs := abs fs; evalSymlinks := evalSymlinks fs;
     clock := clock fs; today := today fs |}.

Definition newDir (fs : FS) (path : string) : FS :=
  withStat fs (fun q =>
    if q =? path then Ok {| fi_IsDir := true; ModTime := clock fs |}
    else stat fs q).

(** [os.MkdirAll(path, 0755)]: a directory at [path] is left alone, another
    file there is an error, and otherwise, unless the system refuses,
    [path] is a directory afterwards.  The parents it creates on the way,
    also when it fails half way, are not recorded. *)
Definition MkdirAll (fs : FS) (path : string) : option error * FS :=
  match stat fs path with
  | Ok dir =>
      if fi_IsDir dir then (None, fs)
      else (Some (PathError "mkdir" path ENOTDIR), fs)
  | Err _ =>
      match mkdirAllErr fs path with
      | Some err => (Some err, fs)
      | None => (None, newDir fs path)
      end
  end.

(** [os.RemoveAll(path)]: unless the system refuses, [path] and every path
    spelled below it no longer exist.  What a refused removal has already
    deleted, and the modification time of the parent, are not recorded. *)
Definition RemoveAll (fs : FS) (path : string) : option error * FS :=
  match removeAllErr fs path with
  | Some err => (Some err, fs)
  | None =>
      (None,
       withStat fs (fun q =>
         if (q =? path) || strings.HasPrefix q (path ++ "/")
         then Err (PathError "stat" q ENOENT)
         else stat fs q))
  end.

End os.

Module filepath.

Definition Separator : ascii := "/"%char.

(** The elements of a path between separators, empty ones included. *)
Fixpoint elements (path : string) : list string :=
  match path with
  | "" => [""]
  | String c r =>
      if Ascii.eqb c Separator then "" :: elements r
      else match elements r with
           | h :: t => String c h :: t
           | [] => [String c ""]
           end
  end.

(** One element of the path processed by [Clean]; [out] holds the elements
    written so far, last one first. *)
Definition cleanStep (rooted : bool) (out : list string) (elem : string)
  : list string :=
  if (elem =? "") || (elem =? ".") then out
  else if elem =? ".." then
    match out with
    | top :: rest => if top =? ".." then elem :: out else rest
    | [] => if rooted then [] else [elem]
    end
  else elem :: out.

(** [filepath.Clean] on Unix. *)
Definition Clean (path : string) : string :=
  if path =? "" then "."
  else
    let rooted := strings.HasPrefix path "/" in
    let out :=
      String.concat "/" (List.rev (fold_left (cleanStep rooted) (elements path) [])) in
    if rooted then "/" ++ out
    else if out =? "" then "." else out.

Fixpoint dropEmpty (elem : list string) : list string :=
  match elem with
  | [] => []
  | e :: rest => if e =? "" then dropEmpty rest else elem
  end.

(** [filepath.Join]. *)
Definition Join (elem : list string) : string :=
  match dropEmpty elem with
  | [] => ""
  | l => Clean (String.concat "/" l)
  end.

(** [filepath.Abs] and [filepath.EvalSymlinks] ask the system. *)
Definition Abs (fs : os.FS) (path : string) := os.abs fs path.
Definition EvalSymlinks (fs : os.FS) (path : string) := os.evalSymlinks fs path.

End filepath.



(* ------------------------------------------------------------------ *)
(** ** The fragment of Go's [regexp] the program's patterns use        *)
(* ------------------------------------------------------------------ *)

Module regexp.

(** A pattern is anchored at the start of the text ([^]) and is a sequence
    of: one byte of a class, an optional byte ([x?]), a capturing group of
    one or more bytes of a class ([([^x]+)]), the end of the text ([$]).
    The classes of the program are ASCII literals, [\d] and [[^x]] for an
    ASCII [x], so matching bytes and matching runes agree. *)
Inductive Tok :=
| Byte (cls : ascii -> bool)
| OptByte (cls : ascii -> bool)
| Group (cls : ascii -> bool)
| EndText.

Definition Regexp := list Tok.

Definition lit (s : string) : Regexp :=
  map (fun c => Byte (Ascii.eqb c)) (list_ascii_of_string s).

Definition digit (c : ascii) : bool :=
  ((48 <=? nat_of_ascii c) && (nat_of_ascii c <=? 57))%nat.

Definition except (x : ascii) (c : ascii) : bool := negb (Ascii.eqb c x).

(** A greedy group: the longest run first, shorter ones on failure of the
    rest of the pattern [k]. *)
Fixpoint group (cls : ascii -> bool) (k : string -> option (list string))
    (taken s : string) : option (list string) :=
  let stop :=
    match taken with
    | "" => None
    | _ => option_map (cons taken) (k s)
    end in
  match s with
  | String a r =>
      if cls a then
        match group cls k (taken ++ String a "") r with
        | Some m => Some m
        | None => stop
        end
      else stop
  | "" => stop
  end.

(** The leftmost-first match of [re] at the start of [s]: the texts of its
    groups, in order. *)
Fixpoint exec (re : Regexp) (s : string) : option (list string) :=
  match re with
  | [] => Some []
  | EndText :: re' =>
      match s with
      | "" => exec re' s
      | _ => None
      end
  | Byte cls :: re' =>
      match s with
      | String a r => if cls a then exec re' r else None
      | "" => None
      end
  | OptByte cls :: re' =>
      match s with
      | String a r =>
          if cls a then
            match exec re' r with
            | Some m => Some m
            | None => exec re' s
            end
          else exec re' s
      | "" => exec re' s
      end
  | Group cls :: re' => group cls (exec re') "" s
  end.

(** [re.FindStringSubmatch(s)], without the whole match at index 0. *)
Definition FindStringSubmatch (re : Regexp) (s : string) : option (list string) :=
  exec re s.

(** [re.MatchString(s)]. *)
Definition MatchString (re : Regexp) (s : string) : bool :=
  match exec re s with Some _ => true | None => false end.

End regexp.

Module sort.

Section Slice.
Context {A : Type} (less : A -> A -> bool).

(** Moves [x] from the right end of the sorted part towards the left
    while it is less than its neighbour; the sorted part is held last
    element first. *)
Fixpoint insert (x : A) (sorted : list A) : list A :=
  match sorted with
  | [] => [x]
  | y :: rest => if less x y then y :: insert x rest else x :: sorted
  end.

(** [sort.Slice]: the library promises a permutation ordered by [less]
    and leaves the order of ties open; this is its insertion sort, the
    one it runs on short slices. *)
Definition Slice (l : list A) : list A :=
  List.rev (fold_left (fun acc x => insert x acc) l []).
End Slice.

End sort.

(* ------------------------------------------------------------------ *)
(** ** Package [workspace]                                             *)
(* ------------------------------------------------------------------ *)

Module workspace.

(** An entry of the tries folder. *)
Record Entry := {
  Name : string;
  Path : string;
  ModTime : time.Time;
  BaseScore : float }.

(** The ten Newton steps of [sqrt]. *)
Fixpoint sqrtLoop (n : nat) (x z : float) : float :=
  match n with
  | O => z
  | S k => sqrtLoop k x (z - (z * z - x) / (2 * z))%float
  end.

Definition sqrt (x : float) : float :=
  if (x <? 0)%float then 0%float
  else if (x =? 0)%float then 0%float
  else sqrtLoop 10 x (x / 2)%float.

(** The pattern [^\d{4}-\d{2}-\d{2}-]. *)
Definition datePrefix : regexp.Regexp :=
  (repeat (regexp.Byte regexp.digit) 4 ++ regexp.lit "-"
     ++ repeat (regexp.Byte regexp.digit) 2 ++ regexp.lit "-"
     ++ repeat (regexp.Byte regexp.digit) 2 ++ regexp.lit "-")%list.

(** The score [Scan] gives a directory [name] modified at [mtime]. *)
Definition baseScoreOf (now mtime : time.Time) (name : string) : float :=
  let hoursSinceAccess := time.Hours (time.Sub now mtime) in
  let baseScore := (3.0 / sqrt (hoursSinceAccess + 1))%float in
  if regexp.MatchString datePrefix name then (baseScore + 2.0)%float
  else baseScore.

(** The body of the loop of [Scan]: [None] where the loop continues
    without appending. *)
Definition scanEntry (now : time.Time) (basePath : string) (e : os.DirEntry)
  : option Entry :=
  if strings.HasPrefix (os.Name e) "." then None
  else if negb (os.IsDir e) then None
  else
    match os.Info e with
    | os.Err _ => None
    | os.Ok info =>
        let mtime := os.ModTime info in
        Some {| Name := os.Name e;
                Path := filepath.Join [basePath; os.Name e];
                ModTime := mtime;
                BaseScore := baseScoreOf now mtime (os.Name e) |}
    end.

Fixpoint scanLoop (now : time.Time) (basePath : string)
    (entries : list os.DirEntry) : list Entry :=
  match entries with
  | [] => []
  | e :: rest =>
      match scanEntry now basePath e with
      | Some entry => entry :: scanLoop now basePath rest
      | None => scanLoop now basePath rest
      end
  end.

Definition byModTime (a b : Entry) : bool := time.After (ModTime a) (ModTime b).

(** [Scan] reads all directories in [basePath], most recent first. *)
Definition Scan (fs : os.FS) (basePath : string) : os.Result (list Entry) :=
  match os.ReadDir fs basePath with
  | os.Err err =>
      if os.IsNotExist (Some err) then os.Ok [] else os.Err err
  | os.Ok entries =>
      let now := os.clock fs in
      os.Ok (sort.Slice byModTime (scanLoop now basePath entries))
  end.

(** The loop of [uniqueName]; it has no exit of its own, so the embedding
    counts its iterations and answers [None] when [fuel] of them did not
    reach the [return]. *)
Fixpoint uniqueNameLoop (fuel : nat) (fs : os.FS) (basePath name candidate : string)
    (i : Z) : option string :=
  match fuel with
  | O => None
  | S fuel' =>
      let path := filepath.Join [basePath; candidate] in
      if os.IsNotExist (os.errOf (os.Stat fs path)) then Some candidate
      else uniqueNameLoop fuel' fs basePath name
             (name ++ "-" ++ fmt.d i) (wrap64 (i + 1))
  end.

Definition uniqueName (fuel : nat) (fs : os.FS) (basePath name : string)
  : option string :=
  uniqueNameLoop fuel fs basePath name name 2.

(** [Create] makes a new date-prefixed directory and returns its path. *)
Definition Create (fuel : nat) (fs : os.FS) (basePath name : string)
  : option (os.Result string * os.FS) :=
  let name := strings.ReplaceAll (strings.TrimSpace name) " " "-" in
  let datePrefix := time.Format (os.today fs) in
  let dirName := datePrefix ++ "-" ++ name in
  match uniqueName fuel fs basePath dirName with
  | None => None
  | Some dirName =>
      let fullPath := filepath.Join [basePath; dirName] in
      match os.MkdirAll fs fullPath with
      | (Some err, fs') => Some (os.Err err, fs')
      | (None, fs') => Some (os.Ok fullPath, fs')
      end
  end.

Definition DatePrefix (fs : os.FS) : string := time.Format (os.today fs).

(** [Delete] removes a directory and all its contents, after the check
    that it lies inside [basePath]. *)
Definition Delete (fs : os.FS) (basePath path : string) : option os.error * os.FS :=
  match filepath.Abs fs basePath with
  | os.Err err => (Some (os.Wrapf "failed to resolve base path: " err), fs)
  | os.Ok absBase =>
  match filepath.Abs fs path with
  | os.Err err => (Some (os.Wrapf "failed to resolve target path: " err), fs)
  | os.Ok absTarget =>
  match filepath.EvalSymlinks fs absBase with
  | os.Err err => (Some (os.Wrapf "failed to resolve base symlinks: " err), fs)
  | os.Ok realBase =>
  match filepath.EvalSymlinks fs absTarget with
  | os.Err err => (Some (os.Wrapf "failed to resolve target symlinks: " err), fs)
  | os.Ok realTarget =>
      if negb (strings.HasPrefix realTarget (realBase ++ String filepath.Separator ""))
      then (Some (os.Errorf ("safety check failed: " ++ realTarget
                               ++ " is not inside " ++ realBase)), fs)
      else os.RemoveAll fs realTarget
  end end end end.

(** Extracted info from a git URL. *)
Record ParsedURL := { User : string; Repo : string; Host : string }.

(** [^git@([^:]+):([^/]+)/([^/]+)$] *)
Definition sshPattern : regexp.Regexp :=
  (regexp.lit "git@" ++ [regexp.Group (regexp.except ":")] ++ regexp.lit ":"
     ++ [regexp.Group (regexp.except "/")] ++ regexp.lit "/"
     ++ [regexp.Group (regexp.except "/"); regexp.EndText])%list.

(** [^https?://([^/]+)/([^/]+)/([^/]+)$] *)
Definition httpsPattern : regexp.Regexp :=
  (regexp.lit "http" ++ [regexp.OptByte (Ascii.eqb "s")] ++ regexp.lit "://"
     ++ [regexp.Group (regexp.except "/")] ++ regexp.lit "/"
     ++ [regexp.Group (regexp.except "/")] ++ regexp.lit "/"
     ++ [regexp.Group (regexp.except "/"); regexp.EndText])%list.

Definition parsed (matches : list string) : ParsedURL :=
  {| Host := nth 0 matches ""; User := nth 1 matches ""; Repo := nth 2 matches "" |}.

(** [ParseGitURL] extracts host, user and repo from a git URL. *)
Definition ParseGitURL (url : string) : os.Result ParsedURL :=
  let url := strings.TrimSuffix url ".git" in
  match regexp.FindStringSubmatch sshPattern url with
  | Some matches => os.Ok (parsed matches)
  | None =>
      match regexp.FindStringSubmatch httpsPattern url with
      | Some matches => os.Ok (parsed matches)
      | None => os.Err (os.Errorf ("unable to parse git URL: " ++ url))
      end
  end.

(** [CloneDirName]: YYYY-MM-DD-user-repo. *)
Definition CloneDirName (fs : os.FS) (url : string) : os.Result string :=
  match ParseGitURL url with
  | os.Err err => os.Err err
  | os.Ok p =>
      let datePrefix := time.Format (os.today fs) in
      os.Ok (datePrefix ++ "-" ++ User p ++ "-" ++ Repo p)
  end.

(** [CloneScript]: the path a clone of [url] is to go to, and the URL. *)
Definition CloneScript (fuel : nat) (fs : os.FS) (basePath url : string)
  : option (os.Result (string * string)) :=
  match CloneDirName fs url with
  | os.Err err => Some (os.Err err)
  | os.Ok dirName =>
      match uniqueName fuel fs basePath dirName with
      | None => None
      | Some dirName =>
          let fullPath := basePath ++ "/" ++ dirName in
          Some (os.Ok (fullPath, url))
      end
  end.

(** [Clone] runs [git clone] into the path it chose. *)
Definition Clone (fuel : nat) (fs : os.FS) (basePath url : string)
  : option (os.Result string * os.FS) :=
  match CloneDirName fs url with
  | os.Err err => Some (os.Err err, fs)
  | os.Ok dirName =>
      match uniqueName fuel fs basePath dirName with
      | None => None
      | Some dirName =>
          let fullPath := basePath ++ "/" ++ dirName in
          match os.gitCloneErr fs url fullPath with
          | Some failure =>
              Some (os.Err (os.Errorf ("git clone failed: " ++ failure)), fs)
          | None => Some (os.Ok fullPath, os.newDir fs fullPath)
          end
      end
  end.

(** [IsGitURL] tells whether the string looks like a git URL. *)
Definition IsGitURL (s : string) : bool :=
  if strings.HasPrefix s "git@" then true
  else if strings.HasPrefix s "https://" || strings.HasPrefix s "http://" then true
  else if strings.HasSuffix s ".git" then true
  else if strings.Contains s "github.com" || strings.Contains s "gitlab.com" then true
  else false.

(** [EnsureDir] creates the directory if it doesn't exist. *)
Definition EnsureDir (fs : os.FS) (path : string) : option os.error * os.FS :=
  os.MkdirAll fs path.

End workspace.

(* ------------------------------------------------------------------ *)
(** ** Package [shell]: the script that carries out an action          *)
(* ------------------------------------------------------------------ *)

Module shell.

(** [quote] escapes a string for the shell with single quotes. *)
Definition quote (s : string) : string :=
  "'" ++ strings.ReplaceAll s "'" (strings.bytes [39; 34; 39; 34; 39]) ++ "'".

(** A [Script] is its list of commands. *)
Definition Script := list string.

Definition New : Script := [].

Definition Add (s : Script) (cmd : string) : Script := (s ++ [cmd])%list.

Definition AddCD (s : Script) (path : string) : Script :=
  Add s ("cd " ++ quote path).

(** [AddRm] adds an [rm -rf] command. *)
Definition AddRm (s : Script) (path basePath : string) : Script :=
  let cmd := "test -d " ++ quote path ++ " && rm -rf " ++ quote path in
  Add s cmd.

Definition AddMkdir (s : Script) (path : string) : Script :=
  Add s ("mkdir -p " ++ quote path).

Definition AddTouch (s : Script) (path : string) : Script :=
  Add s ("touch " ++ quote path).

Definition AddEcho (s : Script) (msg : string) : Script :=
  Add s ("echo " ++ quote msg).

Definition AddGitClone (s : Script) (url destPath : string) : Script :=
  Add s ("git clone " ++ quote url ++ " " ++ quote destPath).

Definition scriptWarning : string :=
  "# if you can read this, you didn't launch try from an alias. run try --help.".

(** The line feed. *)
Definition newline : string := strings.bytes [10].

(** The loop of [Script.String], from the command of index [i] on. *)
Fixpoint writeCommands (i : nat) (commands : list string) : string :=
  match commands with
  | [] => ""
  | cmd :: rest =>
      (if (i =? 0)%nat then cmd else "  " ++ cmd)
        ++ match rest with
           | [] => newline
           | _ => " && \" ++ newline
           end
        ++ writeCommands (S i) rest
  end.

(** [s.String()] renders the script as text for the shell to evaluate. *)
Definition String (s : Script) : string :=
  match s with
  | [] => ""
  | _ => scriptWarning ++ newline ++ writeCommands 0 s
  end.



(** [Clone] is the script that clones a repository and enters it. *)
Definition Clone (path url : string) : string :=
  String (AddCD (AddEcho (AddTouch
            (AddGitClone (AddEcho (AddMkdir New path) ("Cloning " ++ url ++ "..."))
               url path) path) path) path).

(** The last command of the delete script: stay, or go home. *)
Definition stayOrHome : string :=
  strings.bytes [40; 32; 99; 100; 32; 34; 36; 80; 87; 68; 34; 32;
                 50; 62; 47; 100; 101; 118; 47; 110; 117; 108; 108;
                 32; 124; 124; 32; 99; 100; 32; 34; 36; 72; 79; 77;
                 69; 34; 32; 41].

(** [Delete] is the script that deletes [paths]. *)
Definition Delete (paths : list string) (basePath : string) : string :=
  let s := AddCD New basePath in
  let s := fold_left (fun s p => AddRm s p basePath) paths s in
  String (Add s stayOrHome).

End shell.

(* ------------------------------------------------------------------ *)
(** ** Bubble Tea's messages, as far as the selector reads them        *)
(* ------------------------------------------------------------------ *)

Module tea.

Inductive KeyType :=
| KeyRunes | KeyEnter | KeyEscape | KeyBackspace | KeyTab | KeySpace
| KeyUp | KeyDown | KeyLeft | KeyRight | KeyHome | KeyEnd
| KeyPgUp | KeyPgDown | KeyDelete
| KeyCtrlC | KeyCtrlD | KeyCtrlN | KeyCtrlU | KeyCtrlW.

(** A key press ([Type_] is the field [Type]); [Runes] holds the typed
    text, UTF-8 encoded. *)
Record Key := { Type_ : KeyType; Runes : string; Alt : bool; Paste : bool }.

Definition keyNames (t : KeyType) : string :=
  match t with
  | KeyRunes => "runes" | KeyEnter => "enter" | KeyEscape => "esc"
  | KeyBackspace => "backspace" | KeyTab => "tab" | KeySpace => " "
  | KeyUp => "up" | KeyDown => "down" | KeyLeft => "left"
  | KeyRight => "right" | KeyHome => "home" | KeyEnd => "end"
  | KeyPgUp => "pgup" | KeyPgDown => "pgdown" | KeyDelete => "delete"
  | KeyCtrlC => "ctrl+c" | KeyCtrlD => "ctrl+d" | KeyCtrlN => "ctrl+n"
  | KeyCtrlU => "ctrl+u" | KeyCtrlW => "ctrl+w"
  end.

(** [msg.String()]. *)
Definition String (k : Key) : string :=
  (if Alt k then "alt+" else "")
    ++ match Type_ k with
       | KeyRunes => if Paste k then "[" ++ Runes k ++ "]" else Runes k
       | t => keyNames t
       end.

(** A command handed back to the runtime: none, [tea.Quit], or one of the
    list widget's own. *)
Inductive Cmd := Nil | Quit | Widget (id : nat).

End tea.

(* ------------------------------------------------------------------ *)
(** ** Package [tui]: the selector                                     *)
(* ------------------------------------------------------------------ *)

Module tui.

(** The current UI state. *)
Inductive State := StateSelector | StateDeleteConfirm.

Inductive ActionType :=
| ActionNone | ActionCD | ActionCreate | ActionClone | ActionDelete
| ActionCancel.

(** The result of a session. *)
Record Action := {
  Type_ : ActionType;
  Path : string;
  URL : string;
  Paths : list string;
  BaseDir : string }.

Record item := { entry : workspace.Entry }.

Inductive Msg :=
| KeyMsg (k : tea.Key)
| WindowSizeMsg (Width Height : Z)
| entriesLoadedMsg (entries : list workspace.Entry)
| errMsg (err : os.error)
| widgetMsg (id : nat).

Inductive FilterState := Unfiltered | Filtering | FilterApplied.

(** What the selector asks of the list widget ([bubbles/list]). *)
Class ListModel (L : Type) := {
  list_New : L;
  list_FilterState : L -> FilterState;
  list_FilterValue : L -> string;
  list_SelectedItem : L -> option item;
  list_SetItems : L -> list item -> L;
  list_SetSize : L -> Z -> Z -> L;
  list_Update : L -> Msg -> L * tea.Cmd }.

Section Selector.
Context {L : Type} `{ListModel L}.

(** The TUI model (the theme only feeds the rendering). *)
Record Model := {
  basePath : string;
  initialQuery : string;
  state : State;
  list : L;
  entries : Datatypes.list workspace.Entry;
  width : Z;
  height : Z;
  deleteTarget : string;
  deleteConfirm : string;
  action : option Action;
  err : option os.error }.

Definition setList (m : Model) (l : L) : Model :=
  {| basePath := basePath m; initialQuery := initialQuery m;
     state := state m; list := l; entries := entries m;
     width := width m; height := height m;
     deleteTarget := deleteTarget m; deleteConfirm := deleteConfirm m;
     action := action m; err := err m |}.

Definition setAction (m : Model) (a : Action) : Model :=
  {| basePath := basePath m; initialQuery := initialQuery m;
     state := state m; list := list m; entries := entries m;
     width := width m; height := height m;
     deleteTarget := deleteTarget m; deleteConfirm := deleteConfirm m;
     action := Some a; err := err m |}.

Definition setErr (m : Model) (e : os.error) : Model :=
  {| basePath := basePath m; initialQuery := initialQuery m;
     state := state m; list := list m; entries := entries m;
     width := width m; height := height m;
     deleteTarget := deleteTarget m; deleteConfirm := deleteConfirm m;
     action := action m; err := Some e |}.

Definition setSize (m : Model) (w h : Z) : Model :=
  {| basePath := basePath m; initialQuery := initialQuery m;
     state := state m; list := list m; entries := entries m;
     width := w; height := h;
     deleteTarget := deleteTarget m; deleteConfirm := deleteConfirm m;
     action := action m; err := err m |}.

Definition setEntries (m : Model) (es : Datatypes.list workspace.Entry) : Model :=
  {| basePath := basePath m; initialQuery := initialQuery m;
     state := state m; list := list m; entries := es;
     width := width m; height := height m;
     deleteTarget := deleteTarget m; deleteConfirm := deleteConfirm m;
     action := action m; err := err m |}.

(** The three fields of the delete confirmation, assigned together. *)
Definition setDelete (m : Model) (st : State) (target confirm : string) : Model :=
  {| basePath := basePath m; initialQuery := initialQuery m;
     state := st; list := list m; entries := entries m;
     width := width m; height := height m;
     deleteTarget := target; deleteConfirm := confirm;
     action := action m; err := err m |}.

Definition setDeleteConfirm (m : Model) (confirm : string) : Model :=
  setDelete m (state m) (deleteTarget m) confirm.

(** [New(basePath, WithInitialQuery(q))]. *)
Definition New (base : string) (query : option string) : Model :=
  {| basePath := base;
     initialQuery :=
       match query with
       | Some q => strings.ReplaceAll q " " "-"
       | None => ""
       end;
     state := StateSelector; list := list_New; entries := [];
     width := 0; height := 0; deleteTarget := ""; deleteConfirm := "";
     action := None; err := None |}.

Definition handleSelect (m : Model) : Model * tea.Cmd :=
  match list_SelectedItem (list m) with
  | None =>
      let filterVal := list_FilterValue (list m) in
      if negb (filterVal =? "") then
        (setAction m {| Type_ := ActionCreate; Path := filterVal; URL := "";
                        Paths := []; BaseDir := basePath m |}, tea.Quit)
      else (m, tea.Nil)
  | Some i =>
      (setAction m {| Type_ := ActionCD; Path := workspace.Path (entry i);
                      URL := ""; Paths := []; BaseDir := basePath m |},
       tea.Quit)
  end.

Definition handleCreateNew (m : Model) : Model * tea.Cmd :=
  let filterValue := list_FilterValue (list m) in
  if filterValue =? "" then (m, tea.Nil)
  else
    (setAction m {| Type_ := ActionCreate; Path := filterValue; URL := "";
                    Paths := []; BaseDir := basePath m |}, tea.Quit).

Definition handleDelete (m : Model) : Model * tea.Cmd :=
  match list_SelectedItem (list m) with
  | None => (m, tea.Nil)
  | Some i =>
      (setDelete m StateDeleteConfirm (workspace.Path (entry i)) "", tea.Nil)
  end.

(** [s[:len(s)-1]]. *)
Definition dropLast (s : string) : string :=
  substring 0 (String.length s - 1) s.

Definition handleDeleteConfirmKey (m : Model) (msg : tea.Key) : Model * tea.Cmd :=
  match tea.Type_ msg with
  | tea.KeyEscape => (setDelete m StateSelector "" "", tea.Nil)
  | tea.KeyEnter =>
      if deleteConfirm m =? "YES" then
        (setAction m {| Type_ := ActionDelete; Path := ""; URL := "";
                        Paths := [deleteTarget m]; BaseDir := basePath m |},
         tea.Quit)
      else (setDelete m StateSelector "" "", tea.Nil)
  | tea.KeyBackspace =>
      if (0 <? String.length (deleteConfirm m))%nat
      then (setDeleteConfirm m (dropLast (deleteConfirm m)), tea.Nil)
      else (m, tea.Nil)
  | tea.KeyRunes =>
      (setDeleteConfirm m (deleteConfirm m ++ tea.Runes msg), tea.Nil)
  | _ => (m, tea.Nil)
  end.

Definition toList (m : Model) (msg : Msg) : Model * tea.Cmd :=
  let (l, cmd) := list_Update (list m) msg in (setList m l, cmd).

Definition cancel : Action :=
  {| Type_ := ActionCancel; Path := ""; URL := ""; Paths := []; BaseDir := "" |}.

Definition handleKey (m : Model) (msg : tea.Key) : Model * tea.Cmd :=
  match state m with
  | StateDeleteConfirm => handleDeleteConfirmKey m msg
  | StateSelector =>
      let key := tea.String msg in
      if key =? "ctrl+c" then (setAction m cancel, tea.Quit)
      else if key =? "esc" then
        match list_FilterState (list m) with
        | Filtering => toList m (KeyMsg msg)
        | _ => (setAction m cancel, tea.Quit)
        end
      else if key =? "enter" then handleSelect m
      else if key =? "ctrl+d" then handleDelete m
      else if key =? "ctrl+n" then handleCreateNew m
      else toList m (KeyMsg msg)
  end.

(** [Update], the transition function of the session. *)
Definition Update (m : Model) (msg : Msg) : Model * tea.Cmd :=
  match msg with
  | KeyMsg k => handleKey m k
  | WindowSizeMsg w h =>
      let m := setSize m w h in
      (setList m (list_SetSize (list m) (w - 4) (h - 2)), tea.Nil)
  | entriesLoadedMsg es =>
      let m := setEntries m es in
      (setList m (list_SetItems (list m) (map (fun e => {| entry := e |}) es)),
       tea.Nil)
  | errMsg e => (setErr m e, tea.Quit)
  | widgetMsg _ => toList m msg
  end.

(** [loadEntries], the command [Init] returns. *)
Definition loadEntries (fs : os.FS) (m : Model) : Msg :=
  match workspace.Scan fs (basePath m) with
  | os.Err e => errMsg e
  | os.Ok es => entriesLoadedMsg es
  end.

Definition GetAction (m : Model) : option Action := action m.

(** The runtime feeds messages to [Update] until a command is
    [tea.Quit]; the flag tells whether that happened. *)
Fixpoint run (m : Model) (msgs : Datatypes.list Msg) : Model * bool :=
  match msgs with
  | [] => (m, false)
  | msg :: rest =>
      match Update m msg with
      | (m', tea.Quit) => (m', true)
      | (m', _) => run m' rest
      end
  end.

(** The models a session passes through while it has not quit. *)
Inductive Reachable (m0 : Model) : Model -> Prop :=
| reach_init : Reachable m0 m0
| reach_step m msg m' cmd :
    Reachable m0 m ->
    Update m msg = (m', cmd) ->
    cmd <> tea.Quit ->
    Reachable m0 m'.

End Selector.

Arguments Model L : clear implicits.

(** [s[i]], for an index within the string. *)
Definition byteAt (i : nat) (s : string) : ascii :=
  match String.get i s with Some c => c | None => "000"%char end.

(** [renderNameWithDim]; [dimmed] is the rendering of the dimmed style. *)
Definition renderNameWithDim (dimmed : string -> string) (name : string) : string :=
  if (11 <? String.length name)%nat
     && Ascii.eqb (byteAt 4 name) "-" && Ascii.eqb (byteAt 7 name) "-"
     && Ascii.eqb (byteAt 10 name) "-"
  then
    let dateStr := substring 0 11 name in
    let rest := substring 11 (String.length name - 11) name in
    dimmed dateStr ++ rest
  else name.

End tui.

(* ------------------------------------------------------------------ *)
(** ** Package [cli]: from the chosen action to the script             *)
(* ------------------------------------------------------------------ *)

Module cli.

(** How a command ends: a script on standard output, an error returned, or
    the message [Cancelled.] and exit status 1. *)
Inductive Outcome :=
| Printed (script : string)
| Failed (err : os.error)
| Cancelled.


(** [handleClone]; [None] when [uniqueName] does not return. *)
Definition handleClone (fuel : nat) (fs : os.FS) (basePath url : string)
  : option Outcome :=
  match workspace.CloneScript fuel fs basePath url with
  | None => None
  | Some (os.Err err) => Some (Failed (os.Wrapf "failed to parse git URL: " err))
  | Some (os.Ok (path, cloneURL)) => Some (Printed (shell.Clone path cloneURL))
  end.

End cli.

(* ------------------------------------------------------------------ *)
(** ** Concrete systems and a concrete list widget to run the code on  *)
(* ------------------------------------------------------------------ *)

Module fixtures.

Definition enoent (op path : string) : os.error :=
  os.PathError op path os.ENOENT.

Definition eacces (op path : string) : os.error :=
  os.PathError op path os.EACCES.

Definition jan19 : time.Date :=
  {| time.year := 2025; time.month := 1; time.day := 19 |}.

(** Noon of 2025-01-19 (UTC), in nanoseconds. *)
Definition noon : time.Time := (1737288000 * 1000000000)%Z.

(** Nothing exists, every write succeeds, paths are absolute and free of
    links. *)
Definition emptyFS : os.FS :=
  {| os.readDir := fun p => os.Err (enoent "open" p);
     os.stat := fun p => os.Err (enoent "stat" p);
     os.mkdirAllErr := fun _ => None;
     os.removeAllErr := fun _ => None;
     os.gitCloneErr := fun _ _ => None;
     os.abs := fun p => os.Ok (filepath.Clean p);
     os.evalSymlinks := fun p => os.Ok p;
     os.clock := noon;
     os.today := jan19 |}.

Definition withReadDir (fs : os.FS)
    (rd : string -> os.Result (list os.DirEntry)) : os.FS :=
  {| os.readDir := rd; os.stat := os.stat fs;
     os.mkdirAllErr := os.mkdirAllErr fs;
     os.removeAllErr := os.removeAllErr fs;
     os.gitCloneErr := os.gitCloneErr fs;
     os.abs := os.abs fs; os.evalSymlinks := os.evalSymlinks fs;
     os.clock := os.clock fs; os.today := os.today fs |}.

Definition withEvalSymlinks (fs : os.FS)
    (ev : string -> os.Result string) : os.FS :=
  {| os.readDir := os.readDir fs; os.stat := os.stat fs;
     os.mkdirAllErr := os.mkdirAllErr fs;
     os.removeAllErr := os.removeAllErr fs;
     os.gitCloneErr := os.gitCloneErr fs;
     os.abs := os.abs fs; os.evalSymlinks := ev;
     os.clock := os.clock fs; os.today := os.today fs |}.

(** [/tries/escape] is a symbolic link to [/home/user/docs]. *)
Definition linkFS : os.FS :=
  withEvalSymlinks emptyFS (fun p =>
    if p =? "/tries/escape" then os.Ok "/home/user/docs" else os.Ok p).

Definition hour : Z := time.Hour.

Definition dirEntry (name : string) (mtime : time.Time) : os.DirEntry :=
  {| os.Name := name; os.IsDir := true;
     os.Info := os.Ok {| os.fi_IsDir := true; os.ModTime := mtime |} |}.

Definition fileEntry (name : string) (mtime : time.Time) : os.DirEntry :=
  {| os.Name := name; os.IsDir := false;
     os.Info := os.Ok {| os.fi_IsDir := false; os.ModTime := mtime |} |}.

(** A directory the listing shows but whose metadata cannot be read. *)
Definition locked : os.DirEntry :=
  {| os.Name := "locked"; os.IsDir := true;
     os.Info := os.Err (eacces "lstat" "/tries/locked") |}.

(** The tries folder of the package's tests: three directories, a hidden
    one and a file. *)
Definition triesListing : list os.DirEntry :=
  [ dirEntry ".hidden" (noon - 5 * hour)%Z;
    dirEntry "2024-01-15-project-a" (noon - 3 * hour)%Z;
    dirEntry "2024-01-20-project-b" (noon - 1 * hour)%Z;
    fileEntry "file.txt" (noon - 4 * hour)%Z;
    dirEntry "other-dir" (noon - 2 * hour)%Z ].

Definition triesFS : os.FS :=
  withReadDir emptyFS (fun p =>
    if p =? "/tries" then os.Ok triesListing
    else os.Err (enoent "open" p)).

Definition lockedFS : os.FS :=
  withReadDir emptyFS (fun p =>
    if p =? "/tries" then os.Ok [locked]
    else os.Err (enoent "open" p)).

Definition deniedFS : os.FS :=
  withReadDir emptyFS (fun p => os.Err (eacces "open" p)).

(** [/tries/2025-01-19-a-b] exists and is a regular file. *)
Definition fileFS : os.FS :=
  os.withStat emptyFS (fun p =>
    if p =? "/tries/2025-01-19-a-b"
    then os.Ok {| os.fi_IsDir := false; os.ModTime := noon |}
    else os.Err (enoent "stat" p)).

(** Every [stat] is refused. *)
Definition refusedFS : os.FS :=
  os.withStat emptyFS (fun p => os.Err (eacces "stat" p)).

(** A small list widget: a cursor over the items, a filter text typed
    after [/], matched as a substring of the item's name. *)
Record Widget := {
  items : list tui.item;
  cursor : nat;
  filterState : tui.FilterState;
  filterValue : string }.

Definition contains (s sub : string) : bool :=
  match String.index 0 sub s with Some _ => true | None => (sub =? "") end.

Definition visible (w : Widget) : list tui.item :=
  match filterState w with
  | tui.Unfiltered => items w
  | _ => filter (fun i => contains (workspace.Name (tui.entry i)) (filterValue w))
           (items w)
  end.

Definition widgetKey (w : Widget) (k : tea.Key) : Widget :=
  let key := tea.String k in
  match filterState w with
  | tui.Filtering =>
      match tea.Type_ k with
      | tea.KeyRunes =>
          {| items := items w; cursor := 0; filterState := tui.Filtering;
             filterValue := filterValue w ++ tea.Runes k |}
      | tea.KeyBackspace =>
          {| items := items w; cursor := 0; filterState := tui.Filtering;
             filterValue := tui.dropLast (filterValue w) |}
      | tea.KeyEscape =>
          {| items := items w; cursor := 0; filterState := tui.Unfiltered;
             filterValue := "" |}
      | _ => w
      end
  | st =>
      if (key =? "down") || (key =? "j") then
        {| items := items w;
           cursor := if (S (cursor w) <? List.length (visible w))%nat
                     then S (cursor w) else cursor w;
           filterState := st; filterValue := filterValue w |}
      else if (key =? "up") || (key =? "k") then
        {| items := items w; cursor := Nat.pred (cursor w);
           filterState := st; filterValue := filterValue w |}
      else if key =? "/" then
        {| items := items w; cursor := 0; filterState := tui.Filtering;
           filterValue := "" |}
      else w
  end.

#[global] Instance widgetList : tui.ListModel Widget :=
  {| tui.list_New :=
       {| items := []; cursor := 0; filterState := tui.Unfiltered;
          filterValue := "" |};
     tui.list_FilterState := filterState;
     tui.list_FilterValue := filterValue;
     tui.list_SelectedItem := fun w => nth_error (visible w) (cursor w);
     tui.list_SetItems := fun w its =>
       {| items := its; cursor := 0; filterState := filterState w;
          filterValue := filterValue w |};
     tui.list_SetSize := fun w _ _ => w;
     tui.list_Update := fun w msg =>
       match msg with
       | tui.KeyMsg k => (widgetKey w k, tea.Nil)
       | _ => (w, tea.Nil)
       end |}.

Definition press (t : tea.KeyType) : tui.Msg :=
  tui.KeyMsg {| tea.Type_ := t; tea.Runes := ""; tea.Alt := false;
                tea.Paste := false |}.

Definition type (s : string) : tui.Msg :=
  tui.KeyMsg {| tea.Type_ := tea.KeyRunes; tea.Runes := s; tea.Alt := false;
                tea.Paste := false |}.

(** A fresh session on [/tries]. *)
Definition session0 : tui.Model Widget := tui.New "/tries" None.

(** The session after the folder was loaded. *)
Definition loaded : tui.Model Widget :=
  fst (tui.run session0 [tui.loadEntries triesFS session0]).

(** ... and after the delete key on the first row. *)
Definition confirming : tui.Model Widget :=
  fst (tui.run loaded [press tea.KeyCtrlD]).

Definition enterKey : tea.Key :=
  {| tea.Type_ := tea.KeyEnter; tea.Runes := ""; tea.Alt := false;
     tea.Paste := false |}.

Definition enter : tui.Msg := tui.KeyMsg enterKey.

(** ... and after the text [YES], or [yes], was typed. *)
Definition typedYES : tui.Model Widget :=
  fst (tui.run confirming [type "Y"; type "E"; type "S"]).

Definition typedLower : tui.Model Widget :=
  fst (tui.run confirming [type "y"; type "e"; type "s"]).

End fixtures.

(* ------------------------------------------------------------------ *)
(** ** Notions the properties are stated with                          *)
(* ------------------------------------------------------------------ *)

Module spec.

(** Both paths made absolute and freed of links, base first, as [Delete]
    does it; [None] when one of the four calls fails. *)
Definition resolved (fs : os.FS) (basePath path : string)
  : option (string * string) :=
  match filepath.Abs fs basePath, filepath.Abs fs path with
  | os.Ok absBase, os.Ok absTarget =>
      match filepath.EvalSymlinks fs absBase,
            filepath.EvalSymlinks fs absTarget with
      | os.Ok realBase, os.Ok realTarget => Some (realBase, realTarget)
      | _, _ => None
      end
  | _, _ => None
  end.

(** The intent [Delete([target], baseDir)]. *)
Definition deleteIntent (target baseDir : string) : tui.Action :=
  {| tui.Type_ := tui.ActionDelete; tui.Path := ""; tui.URL := "";
     tui.Paths := [target]; tui.BaseDir := baseDir |}.

(** What a message does to the confirmation text while the confirmation
    is pending: a key that carries text appends it, Backspace removes the
    last byte, nothing else touches it. *)
Definition edit (text : string) (msg : tui.Msg) : string :=
  match msg with
  | tui.KeyMsg k =>
      match tea.Type_ k with
      | tea.KeyRunes => text ++ tea.Runes k
      | tea.KeyBackspace => tui.dropLast text
      | _ => text
      end
  | _ => text
  end.

(** The two confirmation fields of [m] are defined by the session [msgs]
    that led from [m0] to [m]: the session holds a [ctrl+d], pressed in the
    selector state with row [i] selected; from that key to the end the
    session has been in the confirmation state; the target is the path of
    row [i], and the text is what the messages after that key typed. *)
Definition ConfirmationPending {L} {W : tui.ListModel L}
    (m0 : tui.Model L) (msgs : list tui.Msg) (m : tui.Model L) : Prop :=
  exists pre key post m1 i,
    msgs = (pre ++ tui.KeyMsg key :: post)%list
    /\ tea.String key = "ctrl+d"
    /\ tui.run m0 pre = (m1, false)
    /\ tui.state m1 = tui.StateSelector
    /\ tui.list_SelectedItem (tui.list m1) = Some i
    /\ (forall done rest,
          post = (done ++ rest)%list ->
          tui.state (fst (tui.run m0 (pre ++ tui.KeyMsg key :: done)))
          = tui.StateDeleteConfirm)
    /\ tui.deleteTarget m = workspace.Path (tui.entry i)
    /\ tui.deleteConfirm m = fold_left edit post "".

(** A listed entry that is a directory and not hidden. *)
Definition visibleDir (e : os.DirEntry) : bool :=
  negb (strings.HasPrefix (os.Name e) ".") && os.IsDir e.

(** Its metadata can be read. *)
Definition readable (e : os.DirEntry) : bool :=
  match os.Info e with os.Ok _ => true | os.Err _ => false end.

(** [Scan] answers with exactly the visible directories of the listing. *)
Definition ScanListsEveryDir (fs : os.FS) (basePath : string) : Prop :=
  forall es l,
    os.ReadDir fs basePath = os.Ok es ->
    workspace.Scan fs basePath = os.Ok l ->
    Permutation (map workspace.Name l) (map os.Name (filter visibleDir es)).

(** [Scan] answers with an error when the metadata of a visible directory
    cannot be read. *)
Definition ScanSurfacesInfoErrors (fs : os.FS) (basePath : string) : Prop :=
  forall es e err,
    os.ReadDir fs basePath = os.Ok es ->
    In e es -> visibleDir e = true -> os.Info e = os.Err err ->
    exists err', workspace.Scan fs basePath = os.Err err'.

(** The entry with its score replaced. *)
Definition rescore (g : workspace.Entry -> float) (e : workspace.Entry)
  : workspace.Entry :=
  {| workspace.Name := workspace.Name e; workspace.Path := workspace.Path e;
     workspace.ModTime := workspace.ModTime e; workspace.BaseScore := g e |}.

(** Most recently modified first. *)
Definition newestFirst (a b : workspace.Entry) : Prop :=
  (workspace.ModTime b <= workspace.ModTime a)%Z.

(** The names [uniqueName] tries, in order: name, name-2, name-3, ...; the
    counter is Go's [int]. *)
Definition candidate (name : string) (k : nat) : string :=
  match k with
  | O => name
  | S _ => name ++ "-" ++ fmt.d (wrap64 (Z.of_nat k + 1))
  end.

(** [os.Stat] on the [k]-th candidate answers that it does not exist. *)
Definition free (fs : os.FS) (basePath name : string) (k : nat) : bool :=
  os.IsNotExist (os.errOf (os.Stat fs (filepath.Join [basePath; candidate name k]))).

(** The [k]-th candidate is the first free one. *)
Definition firstFree (fs : os.FS) (basePath name : string) (k : nat) : Prop :=
  free fs basePath name k = true
  /\ forall j, (j < k)%nat -> free fs basePath name j = false.

(** The name [Create] starts from. *)
Definition createName (fs : os.FS) (rawName : string) : string :=
  time.Format (os.today fs) ++ "-"
    ++ strings.ReplaceAll (strings.TrimSpace rawName) " " "-".

Fixpoint noSeparator (s : string) : bool :=
  match s with
  | "" => true
  | String c r => negb (Ascii.eqb c filepath.Separator) && noSeparator r
  end.

(** A name that is one path element. *)
Definition plain (name : string) : bool :=
  negb (name =? "") && negb (name =? ".") && negb (name =? "..")
    && noSeparator name.

(** What [filepath.Join] puts before a plain last element. *)
Definition joinPrefix (basePath : string) : string :=
  match basePath with
  | "" => ""
  | _ =>
      let rooted := strings.HasPrefix basePath "/" in
      let out := List.rev (fold_left (filepath.cleanStep rooted)
                             (filepath.elements basePath) []) in
      (if rooted then "/" else "")
        ++ match out with
           | [] => ""
           | _ => String.concat "/" out ++ "/"
           end
  end.

(** [Create] passes over a candidate only when it is a directory. *)
Definition CollisionOnlyForDirs (fs : os.FS) (basePath rawName : string) : Prop :=
  forall fuel path fs',
    workspace.Create fuel fs basePath rawName = Some (os.Ok path, fs') ->
    path <> filepath.Join [basePath; createName fs rawName] ->
    exists info,
      os.Stat fs (filepath.Join [basePath; createName fs rawName]) = os.Ok info
      /\ os.fi_IsDir info = true.

(** Every byte of [s] is in the class. *)
Fixpoint allBytes (cls : ascii -> bool) (s : string) : bool :=
  match s with
  | "" => true
  | String c r => cls c && allBytes cls r
  end.

(** A field of a git URL: not empty, and free of the byte [x]. *)
Definition field (x : ascii) (s : string) : Prop :=
  s <> "" /\ allBytes (regexp.except x) s = true.

(** [git@HOST:USER/REPO], as the pattern of the program has it: the host
    ends at the first colon. *)
Definition sshShape (u : string) (p : workspace.ParsedURL) : Prop :=
  u = "git@" ++ workspace.Host p ++ ":" ++ workspace.User p ++ "/" ++ workspace.Repo p
  /\ field ":" (workspace.Host p)
  /\ field "/" (workspace.User p)
  /\ field "/" (workspace.Repo p).

(** [http://HOST/USER/REPO] or [https://HOST/USER/REPO]. *)
Definition httpShape (u : string) (p : workspace.ParsedURL) : Prop :=
  (u = "http://" ++ workspace.Host p ++ "/" ++ workspace.User p ++ "/" ++ workspace.Repo p
   \/ u = "https://" ++ workspace.Host p ++ "/" ++ workspace.User p ++ "/" ++ workspace.Repo p)
  /\ field "/" (workspace.Host p)
  /\ field "/" (workspace.User p)
  /\ field "/" (workspace.Repo p).

(** Host, user and repo of every accepted URL are free of [/]. *)
Definition ParsedFieldsHaveNoSlash : Prop :=
  forall url p,
    workspace.ParseGitURL url = os.Ok p ->
    field "/" (workspace.Host p) /\ field "/" (workspace.User p)
    /\ field "/" (workspace.Repo p).

(** The part [([^/]+)/([^/]+)/([^/]+)$] of the second pattern, and, with
    [:] for the first separator, [([^:]+):([^/]+)/([^/]+)$] of the first. *)
Definition threeFields (sep : ascii) : regexp.Regexp :=
  (regexp.Group (regexp.except sep) :: regexp.lit (String sep "")
     ++ regexp.Group (regexp.except "/") :: regexp.lit "/"
     ++ [regexp.Group (regexp.except "/"); regexp.EndText])%list.

(** The double quote. *)
Definition dquote : ascii := ascii_of_nat 34.

(** Where the shell is while it reads a word. *)
Inductive Quoting := Bare | InSingle | InDouble.

(** How a POSIX shell ([sh], [bash], [zsh]: the shells [InitBash] is
    written for) reads a word written as quoted pieces only: between single
    quotes every byte stands for itself up to the next single quote;
    between double quotes every byte stands for itself up to the next
    double quote, except [$], the backquote and the backslash, on which the
    shell would act and this reading gives up, as it does on a byte outside
    quotes and on a quote left open. *)
Fixpoint shWord (q : Quoting) (s : string) : option string :=
  match s with
  | "" => match q with Bare => Some "" | _ => None end
  | String c r =>
      match q with
      | Bare =>
          if Ascii.eqb c "'" then shWord InSingle r
          else if Ascii.eqb c dquote then shWord InDouble r
          else None
      | InSingle =>
          if Ascii.eqb c "'" then shWord Bare r
          else option_map (String c) (shWord InSingle r)
      | InDouble =>
          if Ascii.eqb c dquote then shWord Bare r
          else if Ascii.eqb c "$" || Ascii.eqb c "`" || Ascii.eqb c "\" then None
          else option_map (String c) (shWord InDouble r)
      end
  end.

(** How [fish], the shell [InitFish] is written for, reads such a word.
    Between single quotes a backslash before a single quote or before a
    backslash stands, with it, for that one byte, and any other backslash
    for itself; between double quotes [$] and the backslash are acted on and
    this reading gives up, the backquote stands for itself. *)
Fixpoint fishWord (q : Quoting) (s : string) : option string :=
  match s with
  | "" => match q with Bare => Some "" | _ => None end
  | String c r =>
      match q with
      | Bare =>
          if Ascii.eqb c "'" then fishWord InSingle r
          else if Ascii.eqb c dquote then fishWord InDouble r
          else None
      | InSingle =>
          if Ascii.eqb c "'" then fishWord Bare r
          else if Ascii.eqb c "\" then
            match r with
            | String c' r' =>
                if Ascii.eqb c' "'" || Ascii.eqb c' "\"
                then option_map (String c') (fishWord InSingle r')
                else option_map (String c) (fishWord InSingle r)
            | "" => None
            end
          else option_map (String c) (fishWord InSingle r)
      | InDouble =>
          if Ascii.eqb c dquote then fishWord Bare r
          else if Ascii.eqb c "$" || Ascii.eqb c "\" then None
          else option_map (String c) (fishWord InDouble r)
      end
  end.

(** No byte of [s] is a backslash. *)
Definition noBackslash (s : string) : bool :=
  allBytes (fun c => negb (Ascii.eqb c "\")) s.

(** The command [AddRm] writes for a path. *)
Definition rmCommand (path : string) : string :=
  "test -d " ++ shell.quote path ++ " && rm -rf " ++ shell.quote path.

(** The model with another initial query. *)
Definition withQuery {L} (m : tui.Model L) (q : string) : tui.Model L :=
  {| tui.basePath := tui.basePath m; tui.initialQuery := q;
     tui.state := tui.state m; tui.list := tui.list m;
     tui.entries := tui.entries m; tui.width := tui.width m;
     tui.height := tui.height m; tui.deleteTarget := tui.deleteTarget m;
     tui.deleteConfirm := tui.deleteConfirm m; tui.action := tui.action m;
     tui.err := tui.err m |}.

(** A key that types [text]. *)
Definition runes (text : string) : tui.Msg :=
  tui.KeyMsg {| tea.Type_ := tea.KeyRunes; tea.Runes := text;
                tea.Alt := false; tea.Paste := false |}.

(** The intents [Navigate] and [CreateNew] as actions. *)
Definition cdIntent (path baseDir : string) : tui.Action :=
  {| tui.Type_ := tui.ActionCD; tui.Path := path; tui.URL := "";
     tui.Paths := []; tui.BaseDir := baseDir |}.

Definition createIntent (name baseDir : string) : tui.Action :=
  {| tui.Type_ := tui.ActionCreate; tui.Path := name; tui.URL := "";
     tui.Paths := []; tui.BaseDir := baseDir |}.

(** The text a sequence of keys carries. *)
Fixpoint typed (keys : list tea.Key) : string :=
  match keys with
  | [] => ""
  | k :: rest => tea.Runes k ++ typed rest
  end.

End spec.

(* ================================================================== *)
(** * Properties                                                       *)
(* ================================================================== *)

(* ------------------------------------------------------------------ *)
(** ** The library functions on examples                               *)
(* ------------------------------------------------------------------ *)

Example Clean_ex1 : filepath.Clean "/a/b/../c/./d//" = "/a/c/d".
Proof. reflexivity. Qed.
Example Clean_ex2 : filepath.Clean "a/../../b" = "../b".
Proof. reflexivity. Qed.
Example Clean_ex3 : filepath.Clean "/../a" = "/a".
Proof. reflexivity. Qed.
Example Join_ex1 : filepath.Join ["/tries"; "2025-01-19-a-b"] = "/tries/2025-01-19-a-b".
Proof. reflexivity. Qed.
Example TrimSpace_ex1 : strings.TrimSpace "  a b	 " = "a b".
Proof. reflexivity. Qed.
Example TrimSpace_ex2 :
  strings.TrimSpace (strings.bytes [194; 160; 97; 226; 128; 131; 10]) = "a".
Proof. reflexivity. Qed.
Example TrimSuffix_ex1 : strings.TrimSuffix "a.git.git" ".git" = "a.git".
Proof. reflexivity. Qed.
Example Format_ex1 :
  time.Format {| time.year := 2025; time.month := 1; time.day := 19 |} = "2025-01-19".
Proof. reflexivity. Qed.
Example d_ex1 : fmt.d (-12) = "-12" /\ fmt.d 0 = "0" /\ fmt.d 2 = "2".
Proof. repeat split; reflexivity. Qed.

(* ------------------------------------------------------------------ *)
(** ** Deleting stays inside the base directory                        *)
(* ------------------------------------------------------------------ *)

(** Whatever [Delete] answers, it either left the system as it was and
    reported an error, or it resolved both paths, found the target strictly
    below the base, and handed exactly the resolved target to
    [os.RemoveAll]. *)
Lemma Delete_cases :
  forall (fs : os.FS) (basePath path : string),
    (exists e, workspace.Delete fs basePath path = (Some e, fs))
    \/ (exists realBase realTarget,
          spec.resolved fs basePath path = Some (realBase, realTarget)
          /\ strings.HasPrefix realTarget (realBase ++ "/") = true
          /\ workspace.Delete fs basePath path = os.RemoveAll fs realTarget).
Proof.
  intros fs basePath path.
  unfold workspace.Delete, spec.resolved.
  destruct (filepath.Abs fs basePath) as [absBase|e]; [|left; eauto].
  destruct (filepath.Abs fs path) as [absTarget|e]; [|left; eauto].
  destruct (filepath.EvalSymlinks fs absBase) as [realBase|e]; [|left; eauto].
  destruct (filepath.EvalSymlinks fs absTarget) as [realTarget|e]; [|left; eauto].
  change (String filepath.Separator "") with "/".
  destruct (strings.HasPrefix realTarget (realBase ++ "/")) eqn:E; simpl.
  - right. exists realBase, realTarget. auto.
  - left. eauto.
Qed.

(** C1: [Delete] makes both paths absolute and resolves their links; when
    the resolved target does not start with the resolved base followed by
    the separator, it returns the safety error and the system is unchanged.
    Nothing is asked of the literal [path]: it may well start with
    [basePath]. *)
Theorem Delete_rejects_outside_base :
  forall (fs : os.FS) (basePath path absBase absTarget realBase realTarget : string),
    filepath.Abs fs basePath = os.Ok absBase ->
    filepath.Abs fs path = os.Ok absTarget ->
    filepath.EvalSymlinks fs absBase = os.Ok realBase ->
    filepath.EvalSymlinks fs absTarget = os.Ok realTarget ->
    strings.HasPrefix realTarget (realBase ++ "/") = false ->
    workspace.Delete fs basePath path =
      (Some (os.Errorf ("safety check failed: " ++ realTarget
                          ++ " is not inside " ++ realBase)), fs).
Proof.
  intros fs basePath path absBase absTarget realBase realTarget Hb Ht Hrb Hrt Hout.
  unfold workspace.Delete.
  rewrite Hb, Ht, Hrb, Hrt.
  change (String filepath.Separator "") with "/".
  now rewrite Hout.
Qed.

(** The link [/tries/escape] starts with the base [/tries/] as a string and
    resolves to [/home/user/docs]: it is rejected. *)
Lemma Delete_rejects_outside_base_witness :
  strings.HasPrefix "/tries/escape" ("/tries" ++ "/") = true
  /\ workspace.Delete fixtures.linkFS "/tries" "/tries/escape" =
       (Some (os.Errorf "safety check failed: /home/user/docs is not inside /tries"),
        fixtures.linkFS).
Proof.
  split; [reflexivity|].
  apply (Delete_rejects_outside_base fixtures.linkFS "/tries" "/tries/escape"
           "/tries" "/tries/escape" "/tries" "/home/user/docs");
    reflexivity.
Defined.

(** The script the selector's delete action is turned into does not look at
    the base directory: [AddRm] ignores its second argument. *)
Lemma AddRm_ignores_basePath :
  forall s path basePath basePath',
    shell.AddRm s path basePath = shell.AddRm s path basePath'.
Proof. reflexivity. Qed.

(* ------------------------------------------------------------------ *)
(** ** The selector: keys, confirmation, interruption                  *)
(* ------------------------------------------------------------------ *)

Section SelectorKeys.
Context {L : Type} `{tui.ListModel L}.
Implicit Types m : tui.Model L.

Lemma toList_fields m msg m' cmd :
  tui.toList m msg = (m', cmd) ->
  tui.state m' = tui.state m
  /\ tui.deleteTarget m' = tui.deleteTarget m
  /\ tui.deleteConfirm m' = tui.deleteConfirm m
  /\ tui.action m' = tui.action m.
Proof.
  unfold tui.toList. destruct (tui.list_Update (tui.list m) msg) as [l c].
  intros E; inversion E; subst; simpl; auto.
Qed.

(** In the selector state [ctrl+c] cancels and quits. *)
Lemma CtrlC_cancels_in_selector m msg :
  tui.state m = tui.StateSelector ->
  tea.String msg = "ctrl+c" ->
  tui.Update m (tui.KeyMsg msg) = (tui.setAction m tui.cancel, tea.Quit).
Proof.
  intros Hs Hk. simpl. unfold tui.handleKey. now rewrite Hs, Hk.
Qed.

(** In the confirmation state every key that is not escape, enter,
    backspace or text leaves the model as it is, [ctrl+c] among them. *)
Lemma other_keys_ignored_while_confirming m msg :
  tui.state m = tui.StateDeleteConfirm ->
  tea.Type_ msg <> tea.KeyEscape ->
  tea.Type_ msg <> tea.KeyEnter ->
  tea.Type_ msg <> tea.KeyBackspace ->
  tea.Type_ msg <> tea.KeyRunes ->
  tui.Update m (tui.KeyMsg msg) = (m, tea.Nil).
Proof.
  intros Hs H1 H2 H3 H4. simpl. unfold tui.handleKey. rewrite Hs.
  unfold tui.handleDeleteConfirmKey.
  destruct (tea.Type_ msg); congruence.
Qed.

Lemma entering_confirm m msg m' cmd :
  tui.Update m msg = (m', cmd) ->
  tui.state m = tui.StateSelector ->
  tui.state m' = tui.StateDeleteConfirm ->
  cmd = tea.Nil /\ tui.deleteConfirm m' = ""
  /\ exists i, tui.list_SelectedItem (tui.list m) = Some i
               /\ tui.deleteTarget m' = workspace.Path (tui.entry i).
Proof.
  intros HU Hs Hs'.
  destruct msg as [k|w h|es|e|id]; simpl in HU.
  - unfold tui.handleKey in HU. rewrite Hs in HU.
    destruct (tea.String k =? "ctrl+c");
      [inversion HU; subst; simpl in Hs'; congruence|].
    destruct (tea.String k =? "esc").
    { destruct (tui.list_FilterState (tui.list m));
        try (inversion HU; subst; simpl in Hs'; congruence).
      apply toList_fields in HU. destruct HU as (E & _). congruence. }
    destruct (tea.String k =? "enter").
    { unfold tui.handleSelect in HU.
      destruct (tui.list_SelectedItem (tui.list m));
        [inversion HU; subst; simpl in Hs'; congruence|].
      destruct (negb _); inversion HU; subst; simpl in Hs'; congruence. }
    destruct (tea.String k =? "ctrl+d").
    { unfold tui.handleDelete in HU.
      destruct (tui.list_SelectedItem (tui.list m)) as [i|] eqn:Ei;
        inversion HU; subst; [|congruence].
      simpl. repeat split; auto. exists i. auto. }
    destruct (tea.String k =? "ctrl+n").
    { unfold tui.handleCreateNew in HU.
      destruct (tui.list_FilterValue (tui.list m) =? "");
        inversion HU; subst; simpl in Hs'; congruence. }
    apply toList_fields in HU. destruct HU as (E & _). congruence.
  - inversion HU; subst; simpl in Hs'; congruence.
  - inversion HU; subst; simpl in Hs'; congruence.
  - inversion HU; subst; simpl in Hs'; congruence.
  - apply toList_fields in HU. destruct HU as (E & _). congruence.
Qed.

Lemma leaving_confirm m msg m' cmd :
  tui.Update m msg = (m', cmd) ->
  tui.state m = tui.StateDeleteConfirm ->
  tui.state m' = tui.StateSelector ->
  cmd = tea.Nil /\ tui.deleteTarget m' = "" /\ tui.deleteConfirm m' = "".
Proof.
  intros HU Hs Hs'.
  destruct msg as [k|w h|es|e|id]; simpl in HU.
  - unfold tui.handleKey in HU. rewrite Hs in HU.
    unfold tui.handleDeleteConfirmKey in HU.
    destruct (tea.Type_ k);
      try (inversion HU; subst; simpl in *; (congruence || auto)).
    + destruct (tui.deleteConfirm m =? "YES");
        inversion HU; subst; simpl in *; (congruence || auto).
    + destruct (0 <? String.length (tui.deleteConfirm m))%nat;
        inversion HU; subst; simpl in *; (congruence || auto).
  - inversion HU; subst; simpl in Hs'; congruence.
  - inversion HU; subst; simpl in Hs'; congruence.
  - inversion HU; subst; simpl in Hs'; congruence.
  - apply toList_fields in HU. destruct HU as (E & _). congruence.
Qed.

(** A step that stays in the selector state keeps both fields. *)
Lemma staying_selector m msg m' cmd :
  tui.Update m msg = (m', cmd) ->
  tui.state m = tui.StateSelector ->
  tui.state m' = tui.StateSelector ->
  tui.deleteTarget m' = tui.deleteTarget m
  /\ tui.deleteConfirm m' = tui.deleteConfirm m.
Proof.
  intros HU Hs Hs'.
  destruct msg as [k|w h|es|e|id]; simpl in HU.
  - unfold tui.handleKey in HU. rewrite Hs in HU.
    destruct (tea.String k =? "ctrl+c"); [inversion HU; subst; simpl; auto|].
    destruct (tea.String k =? "esc").
    { destruct (tui.list_FilterState (tui.list m));
        try (inversion HU; subst; simpl; now auto).
      apply toList_fields in HU. tauto. }
    destruct (tea.String k =? "enter").
    { unfold tui.handleSelect in HU.
      destruct (tui.list_SelectedItem (tui.list m));
        [inversion HU; subst; simpl; now auto|].
      destruct (negb _); inversion HU; subst; simpl; auto. }
    destruct (tea.String k =? "ctrl+d").
    { unfold tui.handleDelete in HU.
      destruct (tui.list_SelectedItem (tui.list m)) as [i|] eqn:Ei;
        inversion HU; subst; simpl in *; [congruence|auto]. }
    destruct (tea.String k =? "ctrl+n").
    { unfold tui.handleCreateNew in HU.
      destruct (tui.list_FilterValue (tui.list m) =? "");
        inversion HU; subst; simpl; auto. }
    apply toList_fields in HU. tauto.
  - inversion HU; subst; simpl; auto.
  - inversion HU; subst; simpl; auto.
  - inversion HU; subst; simpl; auto.
  - apply toList_fields in HU. tauto.
Qed.

(** A step that stays in the confirmation state keeps the target. *)
Lemma staying_confirm m msg m' cmd :
  tui.Update m msg = (m', cmd) ->
  tui.state m = tui.StateDeleteConfirm ->
  tui.deleteTarget m' = tui.deleteTarget m \/ tui.state m' = tui.StateSelector.
Proof.
  intros HU Hs.
  destruct msg as [k|w h|es|e|id]; simpl in HU.
  - unfold tui.handleKey in HU. rewrite Hs in HU.
    unfold tui.handleDeleteConfirmKey in HU.
    destruct (tea.Type_ k);
      try (inversion HU; subst; simpl in *; now auto).
    + destruct (tui.deleteConfirm m =? "YES");
        inversion HU; subst; simpl in *; auto.
    + destruct (0 <? String.length (tui.deleteConfirm m))%nat;
        inversion HU; subst; simpl in *; auto.
  - inversion HU; subst; simpl; auto.
  - inversion HU; subst; simpl; auto.
  - inversion HU; subst; simpl; auto.
  - apply toList_fields in HU. left. tauto.
Qed.

End SelectorKeys.

(** C2: in the confirmation state, Enter with the text equal to "YES" sets
    the action to [Delete([deleteTarget], basePath)] and quits; Enter with
    any other text sets no action and no error, empties both confirmation
    fields and goes back to the selector state. *)
Theorem Enter_while_confirming :
  forall (L : Type) (W : tui.ListModel L) (m : tui.Model L) (msg : tea.Key),
    tui.state m = tui.StateDeleteConfirm ->
    tea.Type_ msg = tea.KeyEnter ->
    (tui.deleteConfirm m = "YES" ->
     exists m',
       tui.Update m (tui.KeyMsg msg) = (m', tea.Quit)
       /\ tui.GetAction m' =
            Some (spec.deleteIntent (tui.deleteTarget m) (tui.basePath m)))
    /\ (tui.deleteConfirm m <> "YES" ->
        exists m',
          tui.Update m (tui.KeyMsg msg) = (m', tea.Nil)
          /\ tui.state m' = tui.StateSelector
          /\ tui.deleteTarget m' = "" /\ tui.deleteConfirm m' = ""
          /\ tui.action m' = tui.action m /\ tui.err m' = tui.err m).
Proof.
  intros L W m msg Hs Hk. simpl. unfold tui.handleKey. rewrite Hs.
  unfold tui.handleDeleteConfirmKey. rewrite Hk. split; intros Hc.
  - rewrite Hc. simpl. eexists. split; [reflexivity|]. reflexivity.
  - apply String.eqb_neq in Hc. rewrite Hc.
    eexists. split; [reflexivity|]. simpl. auto 6.
Qed.

(** After [YES] the first row of the folder is to be deleted; after [yes]
    the session is back in the selector. *)
Lemma Enter_while_confirming_witness :
  (exists m',
     tui.Update fixtures.typedYES fixtures.enter = (m', tea.Quit)
     /\ tui.GetAction m' =
          Some (spec.deleteIntent "/tries/2024-01-20-project-b" "/tries"))
  /\ (exists m',
        tui.Update fixtures.typedLower fixtures.enter = (m', tea.Nil)
        /\ tui.state m' = tui.StateSelector
        /\ tui.deleteTarget m' = "" /\ tui.deleteConfirm m' = ""
        /\ tui.action m' = None /\ tui.err m' = None).
Proof.
  split.
  - apply (proj1 (Enter_while_confirming _ _ fixtures.typedYES
                    fixtures.enterKey eq_refl eq_refl)).
    reflexivity.
  - apply (proj2 (Enter_while_confirming _ _ fixtures.typedLower
                    fixtures.enterKey eq_refl eq_refl)).
    vm_compute. discriminate.
Defined.

(** C3, at the failing input: while the deletion of a row awaits its
    confirmation, [ctrl+c] changes nothing: no action is set and the
    session does not quit. *)
Theorem CtrlC_ignored_while_confirming :
  tui.state fixtures.confirming = tui.StateDeleteConfirm
  /\ tui.Update fixtures.confirming (fixtures.press tea.KeyCtrlC)
     = (fixtures.confirming, tea.Nil)
  /\ tui.GetAction fixtures.confirming = None.
Proof.
  split; [reflexivity|]. split; [|reflexivity].
  apply other_keys_ignored_while_confirming; simpl; congruence.
Qed.

(** Outside the confirmation state both fields are empty. *)
Lemma selector_fields_empty :
  forall (L : Type) (W : tui.ListModel L) (m0 m : tui.Model L),
    tui.state m0 = tui.StateSelector ->
    tui.deleteTarget m0 = "" -> tui.deleteConfirm m0 = "" ->
    tui.Reachable m0 m ->
    tui.state m = tui.StateSelector ->
    tui.deleteTarget m = "" /\ tui.deleteConfirm m = "".
Proof.
  intros L W m0 m Hs0 Ht0 Hc0 HR.
  induction HR as [|m msg m' cmd HR IH HU Hq]; intros Hs'; [auto|].
  destruct (tui.state m) eqn:Es.
  - destruct (staying_selector _ _ _ _ HU Es Hs') as [E1 E2].
    destruct (IH eq_refl). split; congruence.
  - destruct (leaving_confirm _ _ _ _ HU Es Hs') as (_ & E1 & E2). auto.
Qed.

Section ConfirmationTrace.
Context {L : Type} `{tui.ListModel L}.

(** Once a command was [tea.Quit], later messages are not read. *)
Lemma run_quit (msgs1 msgs2 : list tui.Msg) (m m1 : tui.Model L) :
  tui.run m msgs1 = (m1, true) ->
  tui.run m (msgs1 ++ msgs2) = (m1, true).
Proof.
  revert m. induction msgs1 as [|msg rest IH]; intros m E; simpl in *.
  - discriminate.
  - destruct (tui.Update m msg) as [m' c]. destruct c; auto.
Qed.

Lemma run_app (msgs1 msgs2 : list tui.Msg) :
  forall m m1,
    tui.run m msgs1 = (m1, false) ->
    tui.run m (msgs1 ++ msgs2) = tui.run m1 msgs2.
Proof.
  induction msgs1 as [|msg rest IH]; intros m m1 E; cbn in *.
  - now inversion E.
  - destruct (tui.Update m msg) as [m0 c]. destruct c; try discriminate; auto.
Qed.

(** The last message of a session that has not quit. *)
Lemma run_last (msgs : list tui.Msg) (msg : tui.Msg) (m0 m : tui.Model L) :
  tui.run m0 (msgs ++ [msg]) = (m, false) ->
  exists m1 cmd,
    tui.run m0 msgs = (m1, false) /\ tui.Update m1 msg = (m, cmd)
    /\ cmd <> tea.Quit.
Proof.
  intros E. destruct (tui.run m0 msgs) as [m1 [|]] eqn:E1.
  - rewrite (run_quit _ _ _ _ E1) in E. discriminate.
  - rewrite (run_app _ _ _ _ E1) in E. simpl in E.
    destruct (tui.Update m1 msg) as [m' c] eqn:EU.
    exists m1, c. destruct c; inversion E; subst;
      (split; [reflexivity|split; [exact EU|discriminate]]).
Qed.

(** Only the key [ctrl+d] leads from the selector to the confirmation. *)
Lemma entering_by_delete_key (m : tui.Model L) msg m' cmd :
  tui.Update m msg = (m', cmd) ->
  tui.state m = tui.StateSelector ->
  tui.state m' = tui.StateDeleteConfirm ->
  exists key, msg = tui.KeyMsg key /\ tea.String key = "ctrl+d".
Proof.
  intros HU Hs Hs'.
  destruct msg as [k|w h|es|e|id]; simpl in HU.
  - exists k. split; [reflexivity|].
    unfold tui.handleKey in HU. rewrite Hs in HU.
    destruct (tea.String k =? "ctrl+c");
      [inversion HU; subst; simpl in Hs'; congruence|].
    destruct (tea.String k =? "esc").
    { destruct (tui.list_FilterState (tui.list m));
        try (inversion HU; subst; simpl in Hs'; congruence).
      apply toList_fields in HU. destruct HU as (E & _). congruence. }
    destruct (tea.String k =? "enter").
    { unfold tui.handleSelect in HU.
      destruct (tui.list_SelectedItem (tui.list m));
        [inversion HU; subst; simpl in Hs'; congruence|].
      destruct (negb _); inversion HU; subst; simpl in Hs'; congruence. }
    destruct (tea.String k =? "ctrl+d") eqn:Ek.
    { now apply String.eqb_eq. }
    destruct (tea.String k =? "ctrl+n").
    { unfold tui.handleCreateNew in HU.
      destruct (tui.list_FilterValue (tui.list m) =? "");
        inversion HU; subst; simpl in Hs'; congruence. }
    apply toList_fields in HU. destruct HU as (E & _). congruence.
  - inversion HU; subst; simpl in Hs'; congruence.
  - inversion HU; subst; simpl in Hs'; congruence.
  - inversion HU; subst; simpl in Hs'; congruence.
  - apply toList_fields in HU. destruct HU as (E & _). congruence.
Qed.

(** A step that stays in the confirmation state keeps the target and
    edits the text as [spec.edit] says. *)
Lemma staying_confirm_edits (m : tui.Model L) msg m' cmd :
  tui.Update m msg = (m', cmd) ->
  tui.state m = tui.StateDeleteConfirm ->
  tui.state m' = tui.StateDeleteConfirm ->
  tui.deleteTarget m' = tui.deleteTarget m
  /\ tui.deleteConfirm m' = spec.edit (tui.deleteConfirm m) msg.
Proof.
  intros HU Hs Hs'.
  destruct msg as [k|w h|es|e|id]; simpl in HU; cbn [spec.edit].
  - unfold tui.handleKey in HU. rewrite Hs in HU.
    unfold tui.handleDeleteConfirmKey in HU.
    destruct (tea.Type_ k);
      try (inversion HU; subst; simpl in *; (congruence || now auto)).
    + destruct (tui.deleteConfirm m =? "YES");
        inversion HU; subst; simpl in *; (congruence || auto).
    + destruct (0 <? String.length (tui.deleteConfirm m))%nat eqn:El;
        inversion HU; subst; simpl in *; split; auto.
      apply Nat.ltb_ge in El.
      destruct (tui.deleteConfirm m'); [reflexivity|simpl in El; lia].
  - inversion HU; subst; simpl; auto.
  - inversion HU; subst; simpl; auto.
  - inversion HU; subst; simpl; auto.
  - apply toList_fields in HU. tauto.
Qed.

(** A session that is in the confirmation state got there by a [ctrl+d]
    of its own, and its two fields are what that key and the messages
    after it made them. *)
Lemma pending_confirmation (m0 : tui.Model L) :
  tui.state m0 = tui.StateSelector ->
  forall (msgs : list tui.Msg) (m : tui.Model L),
    tui.run m0 msgs = (m, false) ->
    tui.state m = tui.StateDeleteConfirm ->
    spec.ConfirmationPending m0 msgs m.
Proof.
  intros Hs0 msgs. induction msgs as [|msg msgs IH] using rev_ind; intros m E Hs.
  - simpl in E. inversion E; subst. congruence.
  - destruct (run_last _ _ _ _ E) as (mp & cmd & Ep & HU & Hq).
    destruct (tui.state mp) eqn:Esp.
    + destruct (entering_by_delete_key _ _ _ _ HU Esp Hs) as (key & -> & Hk).
      destruct (entering_confirm _ _ _ _ HU Esp Hs) as (_ & Hc & i & Ei & Et).
      exists msgs, key, [], mp, i.
      repeat split; auto.
      intros done rest Hd. symmetry in Hd.
      apply app_eq_nil in Hd. destruct Hd as [-> _].
      rewrite E. exact Hs.
    + destruct (IH mp Ep Esp)
        as (pre & key & post & m1 & i & -> & Hk & E1 & S1 & Sel & Hst & Et & Ec).
      destruct (staying_confirm_edits _ _ _ _ HU Esp Hs) as [Et' Ec'].
      exists pre, key, (post ++ [msg])%list, m1, i.
      split; [now rewrite <- app_assoc|].
      repeat split; auto.
      * intros done rest Hd.
        destruct rest as [|r rest _] using rev_ind.
        -- rewrite app_nil_r in Hd. subst done.
           replace (pre ++ tui.KeyMsg key :: post ++ [msg])%list
             with ((pre ++ tui.KeyMsg key :: post) ++ [msg])%list
             by now rewrite <- app_assoc.
           rewrite E. exact Hs.
        -- rewrite app_assoc in Hd. apply app_inj_tail in Hd.
           destruct Hd as [Hd _]. eapply Hst. exact Hd.
      * congruence.
      * rewrite fold_left_app. simpl. congruence.
Qed.

(** A pending confirmation is only found in the confirmation state. *)
Lemma pending_state (m0 : tui.Model L) (msgs : list tui.Msg) (m : tui.Model L) :
  tui.run m0 msgs = (m, false) ->
  spec.ConfirmationPending m0 msgs m ->
  tui.state m = tui.StateDeleteConfirm.
Proof.
  intros E (pre & key & post & m1 & i & -> & _ & _ & _ & _ & Hst & _).
  specialize (Hst post [] (eq_sym (app_nil_r post))).
  rewrite E in Hst. exact Hst.
Qed.

End ConfirmationTrace.

(** C9: in every model a session started with [New] passes through before
    it quits, the delete target and the confirmation text are defined if
    and only if the session is in the confirmation state.  Whatever the
    messages that led to the model, it is in the confirmation state exactly
    when a confirmation is pending in that session: a [ctrl+d] of the
    session, pressed in the selector with a row selected, since which the
    session has stayed in the confirmation state, the target being the path
    of that row and the text what was typed since.  Outside the state both
    fields are empty, so that a field that is not empty is found in the
    confirmation state only.  The step that enters the state sets the
    target and empties the text; a step that leaves it for the selector
    does not quit and empties both. *)
Theorem confirm_fields_along_session :
  forall (L : Type) (W : tui.ListModel L) (base : string) (query : option string)
         (m : tui.Model L),
    tui.Reachable (tui.New base query) m ->
    (forall msgs : list tui.Msg,
       tui.run (tui.New base query) msgs = (m, false) ->
       (tui.state m = tui.StateDeleteConfirm
        <-> spec.ConfirmationPending (tui.New base query) msgs m))
    /\ (tui.state m = tui.StateSelector ->
        tui.deleteTarget m = "" /\ tui.deleteConfirm m = "")
    /\ (tui.deleteTarget m <> "" \/ tui.deleteConfirm m <> "" ->
        tui.state m = tui.StateDeleteConfirm)
    /\ (forall msg m' cmd,
          tui.Update m msg = (m', cmd) ->
          tui.state m = tui.StateSelector ->
          tui.state m' = tui.StateDeleteConfirm ->
          cmd = tea.Nil /\ tui.deleteConfirm m' = ""
          /\ exists i, tui.list_SelectedItem (tui.list m) = Some i
                       /\ tui.deleteTarget m' = workspace.Path (tui.entry i))
    /\ (forall msg m' cmd,
          tui.Update m msg = (m', cmd) ->
          tui.state m = tui.StateDeleteConfirm ->
          tui.state m' = tui.StateSelector ->
          cmd = tea.Nil /\ tui.deleteTarget m' = "" /\ tui.deleteConfirm m' = "").
Proof.
  intros L W base query m HR.
  pose proof (selector_fields_empty L W (tui.New base query) m
                eq_refl eq_refl eq_refl HR) as A.
  split; [|split; [exact A|split; [|split]]].
  - intros msgs E. split.
    + apply pending_confirmation; [reflexivity|exact E].
    + apply pending_state. exact E.
  - intros Hne. destruct (tui.state m) eqn:Es; [|reflexivity].
    destruct (A eq_refl) as [E1 E2]. destruct Hne; congruence.
  - intros msg m' cmd HU Hs Hs'. eapply entering_confirm; eauto.
  - intros msg m' cmd HU Hs Hs'. eapply leaving_confirm; eauto.
Qed.

(** A run that has not quit ends in a reachable model. *)
Lemma run_Reachable :
  forall (L : Type) (W : tui.ListModel L) (m0 : tui.Model L)
         (msgs : list tui.Msg) (m m' : tui.Model L),
    tui.Reachable m0 m ->
    tui.run m msgs = (m', false) ->
    tui.Reachable m0 m'.
Proof.
  intros L W m0 msgs. induction msgs as [|msg rest IH]; simpl; intros m m' HR E.
  - inversion E; subst; assumption.
  - destruct (tui.Update m msg) as [m1 c] eqn:EU.
    destruct c; try discriminate;
      (eapply IH; [eapply tui.reach_step; [exact HR|exact EU|discriminate]
                  |exact E]).
Qed.

Lemma loaded_Reachable : tui.Reachable fixtures.session0 fixtures.loaded.
Proof.
  apply (run_Reachable _ _ _
           [tui.loadEntries fixtures.triesFS fixtures.session0]
           fixtures.session0).
  - apply tui.reach_init.
  - reflexivity.
Qed.

Lemma confirming_Reachable : tui.Reachable fixtures.session0 fixtures.confirming.
Proof.
  apply (run_Reachable _ _ _ [fixtures.press tea.KeyCtrlD] fixtures.loaded).
  - apply loaded_Reachable.
  - reflexivity.
Qed.

Lemma typedYES_Reachable : tui.Reachable fixtures.session0 fixtures.typedYES.
Proof.
  apply (run_Reachable _ _ _
           [fixtures.type "Y"; fixtures.type "E"; fixtures.type "S"]
           fixtures.confirming).
  - apply confirming_Reachable.
  - reflexivity.
Qed.

(** On the folder of the tests: after loading, both fields are empty; after
    the delete key and the three letters, the confirmation of that very
    session is pending. *)
Lemma confirm_fields_along_session_witness :
  (tui.deleteTarget fixtures.loaded = "" /\ tui.deleteConfirm fixtures.loaded = "")
  /\ spec.ConfirmationPending fixtures.session0
       [tui.loadEntries fixtures.triesFS fixtures.session0;
        fixtures.press tea.KeyCtrlD;
        fixtures.type "Y"; fixtures.type "E"; fixtures.type "S"]
       fixtures.typedYES.
Proof.
  split.
  - apply (proj1 (proj2 (confirm_fields_along_session _ _ "/tries" None
                           fixtures.loaded loaded_Reachable))).
    reflexivity.
  - apply (proj1 (confirm_fields_along_session _ _ "/tries" None
                    fixtures.typedYES typedYES_Reachable)).
    + reflexivity.
    + reflexivity.
Defined.

(* ------------------------------------------------------------------ *)
(** ** Sorting                                                         *)
(* ------------------------------------------------------------------ *)

Section SliceFacts.
Context {A : Type} (less : A -> A -> bool).

Lemma insert_Permutation (x : A) (acc : list A) :
  Permutation (sort.insert less x acc) (x :: acc).
Proof.
  induction acc as [|y rest IH]; simpl; [reflexivity|].
  destruct (less x y); [|reflexivity].
  rewrite IH. apply perm_swap.
Qed.

Lemma fold_insert_Permutation (l acc : list A) :
  Permutation (fold_left (fun acc x => sort.insert less x acc) l acc) (l ++ acc)%list.
Proof.
  revert acc. induction l as [|x l IH]; intros acc; simpl; [reflexivity|].
  rewrite IH, insert_Permutation. symmetry. apply Permutation_middle.
Qed.

(** The result of [sort.Slice] holds the elements it was given. *)
Lemma Slice_Permutation (l : list A) : Permutation (sort.Slice less l) l.
Proof.
  unfold sort.Slice. rewrite <- Permutation_rev, fold_insert_Permutation.
  now rewrite app_nil_r.
Qed.

(** [sort.Slice] commutes with a change of the elements that [less] does
    not see. *)
Lemma insert_map (f : A -> A) (x : A) (acc : list A) :
  (forall a b, less (f a) (f b) = less a b) ->
  sort.insert less (f x) (map f acc) = map f (sort.insert less x acc).
Proof.
  intros Hf. induction acc as [|y rest IH]; simpl; [reflexivity|].
  rewrite Hf. destruct (less x y); simpl; [now rewrite IH|reflexivity].
Qed.

Lemma Slice_map (f : A -> A) (l : list A) :
  (forall a b, less (f a) (f b) = less a b) ->
  sort.Slice less (map f l) = map f (sort.Slice less l).
Proof.
  intros Hf. unfold sort.Slice. rewrite map_rev. f_equal.
  change (@nil A) with (map f []) at 1.
  generalize (@nil A) as acc.
  induction l as [|x l IH]; intros acc; simpl; [reflexivity|].
  rewrite insert_map by assumption. apply IH.
Qed.
End SliceFacts.

Section SliceByKey.
Context {A : Type} (key : A -> Z).
Let less (a b : A) : bool := (key b <? key a)%Z.
Let asc (a b : A) : Prop := (key a <= key b)%Z.
Let desc (a b : A) : Prop := (key b <= key a)%Z.

Lemma insert_In (x y : A) (acc : list A) :
  In y (sort.insert less x acc) -> y = x \/ In y acc.
Proof.
  intros Hin.
  apply (Permutation_in _ (insert_Permutation less x acc)) in Hin.
  destruct Hin; auto.
Qed.

Lemma insert_sorted (x : A) (acc : list A) :
  StronglySorted asc acc -> StronglySorted asc (sort.insert less x acc).
Proof.
  induction 1 as [|y rest Hs IH Hall]; simpl.
  - constructor; constructor.
  - unfold less at 1. destruct (key y <? key x)%Z eqn:E.
    + constructor; [exact IH|].
      apply Forall_forall. intros z Hz.
      apply insert_In in Hz. destruct Hz as [->|Hz].
      * unfold asc. apply Z.ltb_lt in E. lia.
      * rewrite Forall_forall in Hall. auto.
    + apply Z.ltb_ge in E.
      constructor; [constructor; assumption|].
      constructor; [exact E|].
      rewrite Forall_forall in *. intros z Hz. specialize (Hall z Hz).
      unfold asc in *. lia.
Qed.

Lemma fold_insert_sorted (l acc : list A) :
  StronglySorted asc acc ->
  StronglySorted asc (fold_left (fun acc x => sort.insert less x acc) l acc).
Proof.
  revert acc. induction l as [|x l IH]; intros acc Hs; simpl; [exact Hs|].
  apply IH, insert_sorted, Hs.
Qed.

Lemma sorted_snoc (R : A -> A -> Prop) (l : list A) (x : A) :
  StronglySorted R l -> Forall (fun a => R a x) l ->
  StronglySorted R (l ++ [x])%list.
Proof.
  induction 1 as [|y rest Hs IH Hall]; intros Hx; simpl.
  - constructor; constructor.
  - inversion Hx; subst. constructor; [auto|].
    apply Forall_app. split; [assumption|]. constructor; [assumption|constructor].
Qed.

Lemma rev_sorted (l : list A) :
  StronglySorted asc l -> StronglySorted desc (rev l).
Proof.
  induction 1 as [|y rest Hs IH Hall]; simpl; [constructor|].
  apply sorted_snoc; [exact IH|].
  apply Forall_forall. intros z Hz. apply in_rev in Hz.
  rewrite Forall_forall in Hall. exact (Hall z Hz).
Qed.

(** The result of [sort.Slice] by a decreasing key is in decreasing
    order of the key. *)
Lemma Slice_sorted (l : list A) : StronglySorted desc (sort.Slice less l).
Proof.
  unfold sort.Slice. apply rev_sorted, fold_insert_sorted. constructor.
Qed.
End SliceByKey.

(* ------------------------------------------------------------------ *)
(** ** Scanning the base directory                                     *)
(* ------------------------------------------------------------------ *)

Lemma scanEntry_Some :
  forall now basePath e entry,
    workspace.scanEntry now basePath e = Some entry <->
    spec.visibleDir e = true
    /\ exists info,
         os.Info e = os.Ok info
         /\ entry = {| workspace.Name := os.Name e;
                       workspace.Path := filepath.Join [basePath; os.Name e];
                       workspace.ModTime := os.ModTime info;
                       workspace.BaseScore :=
                         workspace.baseScoreOf now (os.ModTime info) (os.Name e) |}.
Proof.
  intros now basePath e entry.
  unfold workspace.scanEntry, spec.visibleDir.
  destruct (strings.HasPrefix (os.Name e) "."); simpl.
  { split; [discriminate|intros [? _]; discriminate]. }
  destruct (os.IsDir e); simpl.
  2:{ split; [discriminate|intros [? _]; discriminate]. }
  destruct (os.Info e) as [info|err].
  - split.
    + intros E; inversion E; subst. split; [reflexivity|]. eauto.
    + intros [_ (info' & E & ->)]. inversion E; subst. reflexivity.
  - split; [discriminate|]. intros [_ (info' & E & _)]. discriminate.
Qed.

Lemma scanEntry_None :
  forall now basePath e,
    workspace.scanEntry now basePath e = None <->
    spec.visibleDir e && spec.readable e = false.
Proof.
  intros now basePath e.
  unfold workspace.scanEntry, spec.visibleDir, spec.readable.
  destruct (strings.HasPrefix (os.Name e) "."); simpl; [tauto|].
  destruct (os.IsDir e); simpl; [|tauto].
  destruct (os.Info e); split; intros; (reflexivity || discriminate).
Qed.

Lemma scanLoop_In :
  forall now basePath es entry,
    In entry (workspace.scanLoop now basePath es) <->
    exists e, In e es /\ workspace.scanEntry now basePath e = Some entry.
Proof.
  intros now basePath es entry. induction es as [|e es IH]; simpl.
  - split; [tauto|intros (e & [] & _)].
  - destruct (workspace.scanEntry now basePath e) as [x|] eqn:Ex; simpl;
      rewrite IH; split.
    + intros [->|(e' & Hin & He')]; eauto.
    + intros (e' & [->|Hin] & He'); [left; congruence|right; eauto].
    + intros (e' & Hin & He'); eauto.
    + intros (e' & [->|Hin] & He'); [congruence|eauto].
Qed.

Lemma scanLoop_names :
  forall now basePath es,
    map workspace.Name (workspace.scanLoop now basePath es)
    = map os.Name (filter (fun e => spec.visibleDir e && spec.readable e) es).
Proof.
  intros now basePath es. induction es as [|e es IH]; simpl; [reflexivity|].
  destruct (workspace.scanEntry now basePath e) as [x|] eqn:Ex.
  - assert (Hk : spec.visibleDir e && spec.readable e = true).
    { destruct (spec.visibleDir e && spec.readable e) eqn:E; [reflexivity|].
      apply scanEntry_None with (now := now) (basePath := basePath) in E.
      congruence. }
    rewrite Hk. simpl. rewrite IH. f_equal.
    apply scanEntry_Some in Ex. destruct Ex as [_ (info & _ & ->)]. reflexivity.
  - apply scanEntry_None in Ex. rewrite Ex. exact IH.
Qed.

Lemma Scan_listing :
  forall fs basePath es,
    os.ReadDir fs basePath = os.Ok es ->
    workspace.Scan fs basePath
    = os.Ok (sort.Slice workspace.byModTime
               (workspace.scanLoop (os.clock fs) basePath es)).
Proof. intros fs basePath es E. unfold workspace.Scan. now rewrite E. Qed.

(** C4, amended: a base directory that does not exist gives the empty list
    and no error; any other failure to list the base directory is returned;
    once the listing is read [Scan] succeeds, and an entry whose metadata
    cannot be read is left out of the result without an error. *)
Theorem Scan_errors :
  forall (fs : os.FS) (basePath : string),
    (forall err,
       os.ReadDir fs basePath = os.Err err ->
       os.IsNotExist (Some err) = true ->
       workspace.Scan fs basePath = os.Ok [])
    /\ (forall err,
          os.ReadDir fs basePath = os.Err err ->
          os.IsNotExist (Some err) = false ->
          workspace.Scan fs basePath = os.Err err)
    /\ (forall es,
          os.ReadDir fs basePath = os.Ok es ->
          exists l,
            workspace.Scan fs basePath = os.Ok l
            /\ Permutation (map workspace.Name l)
                 (map os.Name
                    (filter (fun e => spec.visibleDir e && spec.readable e) es))).
Proof.
  intros fs basePath. repeat split.
  - intros err E Hn. unfold workspace.Scan. now rewrite E, Hn.
  - intros err E Hn. unfold workspace.Scan. now rewrite E, Hn.
  - intros es E. rewrite (Scan_listing _ _ _ E). eexists. split; [reflexivity|].
    rewrite <- scanLoop_names with (now := os.clock fs) (basePath := basePath).
    apply Permutation_map, Slice_Permutation.
Qed.

(** A base directory that is not there, one that may not be opened, and one
    whose only entry cannot be examined. *)
Lemma Scan_errors_witness :
  workspace.Scan fixtures.emptyFS "/tries" = os.Ok []
  /\ workspace.Scan fixtures.deniedFS "/tries"
     = os.Err (fixtures.eacces "open" "/tries")
  /\ (exists l,
        workspace.Scan fixtures.lockedFS "/tries" = os.Ok l
        /\ Permutation (map workspace.Name l) []).
Proof.
  split; [|split].
  - apply (proj1 (Scan_errors fixtures.emptyFS "/tries")
             (fixtures.enoent "open" "/tries")); reflexivity.
  - apply (proj1 (proj2 (Scan_errors fixtures.deniedFS "/tries"))
             (fixtures.eacces "open" "/tries")); reflexivity.
  - apply (proj2 (proj2 (Scan_errors fixtures.lockedFS "/tries"))
             [fixtures.locked]); reflexivity.
Defined.

(** C4 as worded fails: the metadata of [locked] cannot be read and [Scan]
    reports no error. *)
Lemma Scan_hides_Info_error :
  ~ spec.ScanSurfacesInfoErrors fixtures.lockedFS "/tries".
Proof.
  intros Hall.
  destruct (Hall [fixtures.locked] fixtures.locked
              (fixtures.eacces "lstat" "/tries/locked")) as [err' E];
    try reflexivity; [left; reflexivity|].
  discriminate E.
Qed.

(** C5, amended: once the listing is read, [Scan] returns one entry for
    each listed directory that is not hidden and whose metadata can be read,
    and nothing else; each carries the name, the base path joined with the
    name and the modification time of its directory; the entries are in
    decreasing order of modification time, and replacing the scores by any
    others gives the same sequence. *)
Theorem Scan_entries :
  forall (fs : os.FS) (basePath : string) (es : list os.DirEntry),
    os.ReadDir fs basePath = os.Ok es ->
    exists l,
      workspace.Scan fs basePath = os.Ok l
      /\ Permutation (map workspace.Name l)
           (map os.Name
              (filter (fun e => spec.visibleDir e && spec.readable e) es))
      /\ (forall entry,
            In entry l ->
            exists e info,
              In e es /\ spec.visibleDir e = true /\ os.Info e = os.Ok info
              /\ workspace.Name entry = os.Name e
              /\ workspace.Path entry = filepath.Join [basePath; os.Name e]
              /\ workspace.ModTime entry = os.ModTime info)
      /\ StronglySorted spec.newestFirst l
      /\ (forall g,
            sort.Slice workspace.byModTime
              (map (spec.rescore g) (workspace.scanLoop (os.clock fs) basePath es))
            = map (spec.rescore g) l).
Proof.
  intros fs basePath es E. rewrite (Scan_listing _ _ _ E).
  eexists. split; [reflexivity|]. split; [|split; [|split]].
  - rewrite <- scanLoop_names with (now := os.clock fs) (basePath := basePath).
    apply Permutation_map, Slice_Permutation.
  - intros entry Hin.
    apply (Permutation_in _ (Slice_Permutation _ _)) in Hin.
    apply scanLoop_In in Hin. destruct Hin as (e & He & Hs).
    apply scanEntry_Some in Hs. destruct Hs as (Hv & info & Hi & ->).
    exists e, info. simpl. auto 7.
  - apply (Slice_sorted workspace.ModTime).
  - intros g. apply Slice_map. reflexivity.
Qed.

(** The folder of the tests: the hidden directory and the file are left
    out, the three directories come most recent first. *)
Lemma Scan_entries_witness :
  exists l,
    workspace.Scan fixtures.triesFS "/tries" = os.Ok l
    /\ Permutation (map workspace.Name l)
         ["2024-01-15-project-a"; "2024-01-20-project-b"; "other-dir"]
    /\ StronglySorted spec.newestFirst l.
Proof.
  destruct (Scan_entries fixtures.triesFS "/tries" fixtures.triesListing eq_refl)
    as (l & E & P & _ & S & _).
  exists l. split; [exact E|]. split; [exact P|exact S].
Defined.

(** C5 as worded fails: [locked] is a directory of the base directory, its
    name does not start with a dot, and [Scan] returns no entry for it. *)
Lemma Scan_misses_unreadable_dir :
  ~ spec.ScanListsEveryDir fixtures.lockedFS "/tries".
Proof.
  intros Hall.
  specialize (Hall [fixtures.locked] [] eq_refl eq_refl). simpl in Hall.
  apply Permutation_nil in Hall. discriminate Hall.
Qed.

(* ------------------------------------------------------------------ *)
(** ** Joining a base path and a name                                  *)
(* ------------------------------------------------------------------ *)

Lemma append_assoc (a b c : string) : (a ++ b) ++ c = a ++ b ++ c.
Proof. induction a as [|x a IH]; simpl; [reflexivity|now rewrite IH]. Qed.

Lemma append_nil_r (a : string) : a ++ "" = a.
Proof. induction a as [|x a IH]; simpl; [reflexivity|now rewrite IH]. Qed.

Lemma append_inv_head (a b c : string) : a ++ b = a ++ c -> b = c.
Proof. induction a as [|x a IH]; simpl; intros E; [exact E|]. inversion E; auto. Qed.

Lemma append_eq_nil (a b : string) : a ++ b = "" -> a = "" /\ b = "".
Proof. destruct a; simpl; intros E; [auto|discriminate]. Qed.

Lemma elements_not_nil (s : string) : filepath.elements s <> [].
Proof.
  induction s as [|c r IH]; simpl; [discriminate|].
  destruct (Ascii.eqb c filepath.Separator); [discriminate|].
  destruct (filepath.elements r); discriminate.
Qed.

Lemma elements_app (a b : string) :
  filepath.elements (a ++ "/" ++ b)
  = (filepath.elements a ++ filepath.elements b)%list.
Proof.
  change (a ++ "/" ++ b) with (a ++ String "/" b).
  induction a as [|c r IH]; simpl; [reflexivity|].
  rewrite IH.
  destruct (Ascii.eqb c filepath.Separator); simpl; [reflexivity|].
  pose proof (elements_not_nil r) as Hne.
  destruct (filepath.elements r) as [|h t]; [congruence|reflexivity].
Qed.

Lemma elements_plain (n : string) :
  spec.noSeparator n = true -> filepath.elements n = [n].
Proof.
  induction n as [|c r IH]; simpl; [reflexivity|].
  intros H. apply andb_true_iff in H. destruct H as [Hc Hr].
  apply negb_true_iff in Hc. rewrite Hc, (IH Hr). reflexivity.
Qed.

Lemma concat_snoc (sep : string) (l : list string) (n : string) :
  String.concat sep (l ++ [n])
  = match l with [] => "" | _ => String.concat sep l ++ sep end ++ n.
Proof.
  induction l as [|x l IH]; [reflexivity|].
  destruct l as [|y l].
  - simpl. now rewrite append_assoc.
  - change (String.concat sep ((x :: y :: l) ++ [n]))
      with (x ++ sep ++ String.concat sep ((y :: l) ++ [n])).
    rewrite IH.
    change (String.concat sep (x :: y :: l))
      with (x ++ sep ++ String.concat sep (y :: l)).
    now rewrite !append_assoc.
Qed.

Lemma plain_parts (n : string) :
  spec.plain n = true ->
  n <> "" /\ (n =? "") = false /\ (n =? ".") = false /\ (n =? "..") = false
  /\ spec.noSeparator n = true.
Proof.
  unfold spec.plain. intros H.
  repeat (apply andb_true_iff in H; destruct H as [H ?]).
  rewrite negb_true_iff in *. repeat split; auto.
  now apply String.eqb_neq.
Qed.

Lemma HasPrefix_slash (c : ascii) (r : string) :
  strings.HasPrefix (String c r) "/" = Ascii.eqb "/" c.
Proof.
  unfold strings.HasPrefix. cbn [strings.CutPrefix].
  destruct (Ascii.eqb "/" c); reflexivity.
Qed.

Lemma cleanStep_plain (rooted : bool) (out : list string) (n : string) :
  spec.plain n = true -> filepath.cleanStep rooted out n = n :: out.
Proof.
  intros Hp. destruct (plain_parts n Hp) as (_ & H0 & H1 & H2 & _).
  unfold filepath.cleanStep. now rewrite H0, H1, H2.
Qed.

(** Joined to a base path, a plain name is the last element of the result,
    after a prefix that depends on the base path only. *)
Lemma Join_plain (basePath n : string) :
  spec.plain n = true ->
  filepath.Join [basePath; n] = spec.joinPrefix basePath ++ n.
Proof.
  intros Hp. destruct (plain_parts n Hp) as (Hne & H0 & H1 & H2 & Hs).
  destruct basePath as [|b base].
  - unfold filepath.Join. cbn [filepath.dropEmpty String.eqb]. rewrite H0.
    unfold filepath.Clean. cbn [String.concat]. rewrite H0.
    rewrite (elements_plain n Hs). cbn [fold_left].
    rewrite (cleanStep_plain _ _ _ Hp). cbn [List.rev app String.concat].
    rewrite H0.
    destruct n as [|c r]; [congruence|].
    rewrite HasPrefix_slash.
    cbn [spec.noSeparator] in Hs. apply andb_true_iff in Hs. destruct Hs as [Hc _].
    apply negb_true_iff in Hc. rewrite Ascii.eqb_sym in Hc.
    unfold filepath.Separator in Hc. rewrite Hc. reflexivity.
  - unfold filepath.Join. cbn [filepath.dropEmpty String.eqb].
    unfold filepath.Clean.
    change (String.concat "/" [String b base; n]) with (String b base ++ "/" ++ n).
    change (String b base ++ "/" ++ n =? "") with false. cbv iota.
    rewrite elements_app, (elements_plain n Hs), fold_left_app.
    change (String b base ++ "/" ++ n) with (String b (base ++ "/" ++ n)).
    rewrite HasPrefix_slash, <- (HasPrefix_slash b base).
    cbn [fold_left]. rewrite (cleanStep_plain _ _ _ Hp).
    cbn [List.rev]. rewrite concat_snoc.
    unfold spec.joinPrefix.
    set (rooted := strings.HasPrefix (String b base) "/").
    set (out := List.rev (fold_left (filepath.cleanStep rooted)
                            (filepath.elements (String b base)) [])).
    destruct rooted.
    + now rewrite append_assoc.
    + cbn [append].
      destruct (String.eqb_spec
                  (match out with [] => "" | _ :: _ => String.concat "/" out ++ "/" end ++ n) "")
        as [E|E]; [|reflexivity].
      apply append_eq_nil in E. tauto.
Qed.

Lemma Join_plain_inj (basePath n1 n2 : string) :
  spec.plain n1 = true -> spec.plain n2 = true ->
  filepath.Join [basePath; n1] = filepath.Join [basePath; n2] -> n1 = n2.
Proof.
  intros H1 H2. rewrite !Join_plain by assumption. apply append_inv_head.
Qed.

(* ------------------------------------------------------------------ *)
(** ** Finding an unused name                                          *)
(* ------------------------------------------------------------------ *)

Lemma wrap64_succ (x : Z) : wrap64 (wrap64 x + 1) = wrap64 (x + 1).
Proof.
  unfold wrap64. f_equal.
  replace ((x + 2 ^ 63) mod 2 ^ 64 - 2 ^ 63 + 1 + 2 ^ 63)%Z
    with ((x + 2 ^ 63) mod 2 ^ 64 + 1)%Z by lia.
  rewrite Zplus_mod_idemp_l. f_equal. lia.
Qed.

Lemma wrap64_small (x : Z) : (- 2 ^ 63 <= x < 2 ^ 63)%Z -> wrap64 x = x.
Proof.
  intros Hx. unfold wrap64. rewrite Z.mod_small; lia.
Qed.

(** Below the range of [int] the candidates are name-2, name-3, ... *)
Lemma candidate_small (name : string) (k : nat) :
  (1 <= k)%nat -> (Z.of_nat k + 1 < 2 ^ 63)%Z ->
  spec.candidate name k = name ++ "-" ++ fmt.d (Z.of_nat k + 1).
Proof.
  intros H1 H2. destruct k as [|k]; [lia|].
  unfold spec.candidate. rewrite wrap64_small; [reflexivity|lia].
Qed.

Section UniqueName.
Variable fs : os.FS.
Variables basePath name : string.

(** One turn of the loop, at the [k]-th candidate. *)
Lemma uniqueNameLoop_step (fuel k : nat) :
  workspace.uniqueNameLoop (S fuel) fs basePath name
    (spec.candidate name k) (wrap64 (Z.of_nat k + 2))
  = if spec.free fs basePath name k then Some (spec.candidate name k)
    else workspace.uniqueNameLoop fuel fs basePath name
           (spec.candidate name (S k)) (wrap64 (Z.of_nat (S k) + 2)).
Proof.
  cbn [workspace.uniqueNameLoop]. unfold spec.free.
  destruct (os.IsNotExist _); [reflexivity|].
  rewrite wrap64_succ. unfold spec.candidate.
  replace (Z.of_nat (S k) + 1)%Z with (Z.of_nat k + 2)%Z by lia.
  replace (Z.of_nat (S k) + 2)%Z with (Z.of_nat k + 2 + 1)%Z by lia.
  reflexivity.
Qed.

Lemma uniqueNameLoop_finds (d : nat) :
  forall s fuel,
    spec.free fs basePath name (s + d) = true ->
    (forall j, (s <= j < s + d)%nat -> spec.free fs basePath name j = false) ->
    (d < fuel)%nat ->
    workspace.uniqueNameLoop fuel fs basePath name
      (spec.candidate name s) (wrap64 (Z.of_nat s + 2))
    = Some (spec.candidate name (s + d)).
Proof.
  induction d as [|d IH]; intros s fuel Hfree Hbusy Hfuel;
    (destruct fuel as [|fuel]; [lia|]); rewrite uniqueNameLoop_step.
  - rewrite Nat.add_0_r in *. now rewrite Hfree.
  - rewrite Hbusy by lia.
    replace (s + S d)%nat with (S s + d)%nat in * by lia.
    apply IH; [assumption| |lia]. intros j Hj. apply Hbusy. lia.
Qed.

Lemma uniqueNameLoop_spins (fuel : nat) :
  (forall k, spec.free fs basePath name k = false) ->
  forall s,
    workspace.uniqueNameLoop fuel fs basePath name
      (spec.candidate name s) (wrap64 (Z.of_nat s + 2)) = None.
Proof.
  intros Hbusy. induction fuel as [|fuel IH]; intros s; [reflexivity|].
  rewrite uniqueNameLoop_step, Hbusy. apply IH.
Qed.

(** [uniqueName] returns the first free candidate, once the loop is given
    enough turns to reach it. *)
Lemma uniqueName_firstFree (k fuel : nat) :
  spec.firstFree fs basePath name k -> (k < fuel)%nat ->
  workspace.uniqueName fuel fs basePath name = Some (spec.candidate name k).
Proof.
  intros [Hfree Hbusy] Hfuel.
  apply (uniqueNameLoop_finds k 0 fuel); auto.
  intros j Hj. apply Hbusy. lia.
Qed.

Lemma uniqueName_spins (fuel : nat) :
  (forall k, spec.free fs basePath name k = false) ->
  workspace.uniqueName fuel fs basePath name = None.
Proof.
  intros Hbusy. apply (uniqueNameLoop_spins fuel Hbusy 0).
Qed.

(** A free candidate gives a first free candidate. *)
Lemma firstFree_exists (k : nat) :
  spec.free fs basePath name k = true ->
  exists k0, (k0 <= k)%nat /\ spec.firstFree fs basePath name k0.
Proof.
  induction k as [k IH] using lt_wf_ind. intros Hfree.
  destruct (existsb (spec.free fs basePath name) (seq 0 k)) eqn:E.
  - apply existsb_exists in E. destruct E as (j & Hj & Hfj).
    apply in_seq in Hj. destruct (IH j ltac:(lia) Hfj) as (k0 & Hle & Hff).
    exists k0. split; [lia|assumption].
  - exists k. split; [lia|]. split; [assumption|].
    intros j Hj.
    destruct (spec.free fs basePath name j) eqn:Ej; [|reflexivity].
    assert (Hex : existsb (spec.free fs basePath name) (seq 0 k) = true).
    { apply existsb_exists. exists j. split; [apply in_seq; lia|assumption]. }
    congruence.
Qed.

End UniqueName.

Lemma uniqueNameLoop_inv (fs : os.FS) (basePath name : string) (fuel : nat) :
  forall s c,
    workspace.uniqueNameLoop fuel fs basePath name
      (spec.candidate name s) (wrap64 (Z.of_nat s + 2)) = Some c ->
    exists d,
      (d < fuel)%nat /\ c = spec.candidate name (s + d)
      /\ spec.free fs basePath name (s + d) = true
      /\ forall j, (s <= j < s + d)%nat -> spec.free fs basePath name j = false.
Proof.
  induction fuel as [|fuel IH]; intros s c E; [discriminate|].
  rewrite uniqueNameLoop_step in E.
  destruct (spec.free fs basePath name s) eqn:Hs.
  - inversion E; subst. exists 0%nat. rewrite Nat.add_0_r.
    repeat split; [lia|assumption|]. intros j Hj. lia.
  - destruct (IH (S s) c E) as (d & Hd & Hc & Hfree & Hbusy).
    exists (S d). replace (s + S d)%nat with (S s + d)%nat by lia.
    repeat split; [lia|assumption|assumption|].
    intros j Hj. destruct (Nat.eq_dec j s) as [->|Hne]; [assumption|].
    apply Hbusy. lia.
Qed.

(** Whatever [uniqueName] returns is the first free candidate. *)
Lemma uniqueName_inv (fs : os.FS) (basePath name : string) (fuel : nat) (c : string) :
  workspace.uniqueName fuel fs basePath name = Some c ->
  exists k, (k < fuel)%nat /\ spec.firstFree fs basePath name k
            /\ c = spec.candidate name k.
Proof.
  intros E. destruct (uniqueNameLoop_inv fs basePath name fuel 0 c E)
    as (d & Hd & Hc & Hfree & Hbusy).
  exists d. simpl in *. repeat split; auto. intros j Hj. apply Hbusy. lia.
Qed.

Lemma Create_unfold (fs : os.FS) (basePath rawName : string) (fuel : nat) :
  workspace.Create fuel fs basePath rawName
  = match workspace.uniqueName fuel fs basePath (spec.createName fs rawName) with
    | None => None
    | Some dirName =>
        match os.MkdirAll fs (filepath.Join [basePath; dirName]) with
        | (Some err, fs') => Some (os.Err err, fs')
        | (None, fs') => Some (os.Ok (filepath.Join [basePath; dirName]), fs')
        end
    end.
Proof. reflexivity. Qed.

Lemma MkdirAll_free (fs : os.FS) (path : string) :
  os.IsNotExist (os.errOf (os.Stat fs path)) = true ->
  os.MkdirAll fs path
  = match os.mkdirAllErr fs path with
    | Some err => (Some err, fs)
    | None => (None, os.newDir fs path)
    end.
Proof.
  unfold os.MkdirAll, os.Stat. destruct (os.stat fs path); [discriminate|reflexivity].
Qed.

(** C10: [uniqueName] returns the first of name, name-2, name-3, ... that
    [os.Stat] reports as not existing: whatever it returns is that
    candidate, and it does return it once the loop has run far enough;
    this happens as soon as some candidate is free, and then [Create],
    [CloneScript] and [Clone] return too.  When no candidate is free, the
    loop never returns, however long it runs. *)
Theorem uniqueName_returns_first_free :
  forall (fs : os.FS) (basePath name : string),
    (forall fuel c,
       workspace.uniqueName fuel fs basePath name = Some c ->
       exists k, spec.firstFree fs basePath name k /\ c = spec.candidate name k)
    /\ ((exists k, spec.free fs basePath name k = true) ->
        exists k0,
          spec.firstFree fs basePath name k0
          /\ forall fuel, (k0 < fuel)%nat ->
               workspace.uniqueName fuel fs basePath name
               = Some (spec.candidate name k0))
    /\ ((forall k, spec.free fs basePath name k = false) ->
        forall fuel, workspace.uniqueName fuel fs basePath name = None)
    /\ (forall k, (1 <= k)%nat -> (Z.of_nat k + 1 < 2 ^ 63)%Z ->
          spec.candidate name k = name ++ "-" ++ fmt.d (Z.of_nat k + 1))
    /\ ((exists k, spec.free fs basePath name k = true) ->
        exists fuel0, forall fuel, (fuel0 <= fuel)%nat ->
          (forall rawName, spec.createName fs rawName = name ->
             exists r, workspace.Create fuel fs basePath rawName = Some r)
          /\ (forall url, workspace.CloneDirName fs url = os.Ok name ->
                (exists r, workspace.CloneScript fuel fs basePath url = Some r)
                /\ (exists r, workspace.Clone fuel fs basePath url = Some r))).
Proof.
  intros fs basePath name.
  assert (Hfind : (exists k, spec.free fs basePath name k = true) ->
                  exists k0, spec.firstFree fs basePath name k0
                    /\ forall fuel, (k0 < fuel)%nat ->
                         workspace.uniqueName fuel fs basePath name
                         = Some (spec.candidate name k0)).
  { intros [k Hk]. destruct (firstFree_exists fs basePath name k Hk) as (k0 & _ & Hff).
    exists k0. split; [assumption|]. intros fuel Hfuel.
    now apply uniqueName_firstFree. }
  split; [|split; [exact Hfind|split; [|split]]].
  - intros fuel c E. destruct (uniqueName_inv _ _ _ _ _ E) as (k & _ & Hff & Hc).
    exists k. auto.
  - intros Hbusy fuel. now apply uniqueName_spins.
  - intros k. apply candidate_small.
  - intros Hex. destruct (Hfind Hex) as (k0 & _ & Hret).
    exists (S k0). intros fuel Hfuel. specialize (Hret fuel ltac:(lia)).
    split.
    + intros rawName Hname. rewrite Create_unfold, Hname, Hret.
      destruct (os.MkdirAll fs _) as [[err|] fs']; eexists; reflexivity.
    + intros url Hurl. unfold workspace.CloneScript, workspace.Clone.
      rewrite Hurl, Hret. split; [eexists; reflexivity|].
      destruct (os.gitCloneErr fs url _); eexists; reflexivity.
Qed.

(** With a file in the way the second candidate is returned; where every
    [stat] is refused the loop does not return. *)
Lemma uniqueName_returns_first_free_witness :
  (exists k0,
     spec.firstFree fixtures.fileFS "/tries" "2025-01-19-a-b" k0
     /\ forall fuel, (k0 < fuel)%nat ->
          workspace.uniqueName fuel fixtures.fileFS "/tries" "2025-01-19-a-b"
          = Some (spec.candidate "2025-01-19-a-b" k0))
  /\ workspace.uniqueName 1000 fixtures.refusedFS "/tries" "x" = None.
Proof.
  split.
  - apply (proj1 (proj2 (uniqueName_returns_first_free
                           fixtures.fileFS "/tries" "2025-01-19-a-b"))).
    exists 1%nat. reflexivity.
  - apply (proj1 (proj2 (proj2 (uniqueName_returns_first_free
                                  fixtures.refusedFS "/tries" "x")))).
    intros k. reflexivity.
Defined.

(* ------------------------------------------------------------------ *)
(** ** Creating a workspace                                            *)
(* ------------------------------------------------------------------ *)

Lemma Create_firstFree (fs : os.FS) (basePath rawName : string) (k fuel : nat) :
  spec.firstFree fs basePath (spec.createName fs rawName) k ->
  (k < fuel)%nat ->
  workspace.Create fuel fs basePath rawName
  = let path :=
      filepath.Join [basePath; spec.candidate (spec.createName fs rawName) k] in
    Some (match os.mkdirAllErr fs path with
          | Some err => (os.Err err, fs)
          | None => (os.Ok path, os.newDir fs path)
          end).
Proof.
  intros Hff Hfuel. rewrite Create_unfold.
  rewrite (uniqueName_firstFree _ _ _ _ _ Hff Hfuel).
  rewrite MkdirAll_free by apply Hff.
  cbv zeta. destruct (os.mkdirAllErr fs _); reflexivity.
Qed.

Lemma createName_jan19 (fs : os.FS) :
  os.today fs = fixtures.jan19 -> spec.createName fs "a b" = "2025-01-19-a-b".
Proof. intros E. unfold spec.createName. rewrite E. reflexivity. Qed.

(** C6, amended: [Create] trims the raw name, puts [-] for its spaces and
    today's date and [-] before it, then takes the first of that name,
    name-2, name-3, ... for which [os.Stat] answers "does not exist", and
    makes that directory; a candidate is passed over whenever [os.Stat]
    answers anything else, be it a directory, a file or another error.  On
    2025-01-19, with neither name in use, [Create base "a b"] makes
    2025-01-19-a-b under [base], and a second call makes 2025-01-19-a-b-2. *)
Theorem Create_names :
  forall (fs : os.FS) (basePath rawName : string),
    spec.createName fs rawName
      = time.Format (os.today fs) ++ "-"
          ++ strings.ReplaceAll (strings.TrimSpace rawName) " " "-"
    /\ (forall k fuel,
          spec.firstFree fs basePath (spec.createName fs rawName) k ->
          (k < fuel)%nat ->
          workspace.Create fuel fs basePath rawName
          = let path :=
              filepath.Join
                [basePath; spec.candidate (spec.createName fs rawName) k] in
            Some (match os.mkdirAllErr fs path with
                  | Some err => (os.Err err, fs)
                  | None => (os.Ok path, os.newDir fs path)
                  end))
    /\ (forall fuel path fs',
          spec.free fs basePath (spec.createName fs rawName) 0 = false ->
          workspace.Create fuel fs basePath rawName = Some (os.Ok path, fs') ->
          path <> filepath.Join [basePath; spec.createName fs rawName])
    /\ (os.today fs = fixtures.jan19 ->
        rawName = "a b" ->
        spec.free fs basePath "2025-01-19-a-b" 0 = true ->
        spec.free fs basePath "2025-01-19-a-b" 1 = true ->
        os.mkdirAllErr fs (filepath.Join [basePath; "2025-01-19-a-b"]) = None ->
        os.mkdirAllErr fs (filepath.Join [basePath; "2025-01-19-a-b-2"]) = None ->
        forall fuel, (2 <= fuel)%nat ->
        exists fs1 fs2,
          workspace.Create fuel fs basePath rawName
            = Some (os.Ok (spec.joinPrefix basePath ++ "2025-01-19-a-b"), fs1)
          /\ workspace.Create fuel fs1 basePath rawName
             = Some (os.Ok (spec.joinPrefix basePath ++ "2025-01-19-a-b-2"), fs2)).
Proof.
  intros fs basePath rawName.
  split; [reflexivity|]. split; [|split].
  - intros k fuel. apply Create_firstFree.
  - intros fuel path fs' Hbusy E Hp.
    rewrite Create_unfold in E.
    destruct (workspace.uniqueName fuel fs basePath (spec.createName fs rawName))
      as [c|] eqn:Eu; [|discriminate].
    destruct (uniqueName_inv _ _ _ _ _ Eu) as (k & _ & [Hfree _] & ->).
    destruct (os.MkdirAll fs _) as [[err|] fs1]; inversion E; subst.
    unfold spec.free in Hfree, Hbusy. rewrite H0 in Hfree.
    cbn [spec.candidate] in Hbusy. congruence.
  - intros Htoday -> Hf0 Hf1 Hm0 Hm1 fuel Hfuel.
    set (p0 := filepath.Join [basePath; "2025-01-19-a-b"]) in *.
    set (p1 := filepath.Join [basePath; "2025-01-19-a-b-2"]) in *.
    assert (Hp0 : p0 = spec.joinPrefix basePath ++ "2025-01-19-a-b")
      by (apply Join_plain; reflexivity).
    assert (Hp1 : p1 = spec.joinPrefix basePath ++ "2025-01-19-a-b-2")
      by (apply Join_plain; reflexivity).
    assert (Hne : (p1 =? p0) = false).
    { apply String.eqb_neq. intros E.
      apply Join_plain_inj in E; [discriminate|reflexivity|reflexivity]. }
    exists (os.newDir fs p0), (os.newDir (os.newDir fs p0) p1).
    split.
    + rewrite (Create_firstFree fs basePath "a b" 0 fuel);
        rewrite ?(createName_jan19 fs Htoday); [|split; [assumption|lia]|lia].
      cbv zeta. cbn [spec.candidate]. fold p0. now rewrite Hm0, Hp0.
    + assert (Htoday1 : os.today (os.newDir fs p0) = fixtures.jan19) by exact Htoday.
      rewrite (Create_firstFree (os.newDir fs p0) basePath "a b" 1 fuel);
        rewrite ?(createName_jan19 _ Htoday1); [| |lia].
      * cbv zeta. change (spec.candidate "2025-01-19-a-b" 1) with "2025-01-19-a-b-2".
        fold p1. change (os.mkdirAllErr (os.newDir fs p0) p1) with (os.mkdirAllErr fs p1).
        now rewrite Hm1, Hp1.
      * split.
        -- unfold spec.free.
           change (spec.candidate "2025-01-19-a-b" 1) with "2025-01-19-a-b-2".
           fold p1. unfold os.Stat, os.newDir, os.withStat; cbn [os.stat].
           rewrite Hne. exact Hf1.
        -- intros j Hj. assert (j = 0)%nat as -> by lia.
           unfold spec.free. cbn [spec.candidate]. fold p0.
           unfold os.Stat, os.newDir, os.withStat; cbn [os.stat].
           now rewrite String.eqb_refl.
Qed.

(** In an empty folder on 2025-01-19. *)
Lemma Create_names_witness :
  exists fs1 fs2,
    workspace.Create 2 fixtures.emptyFS "/tries" "a b"
      = Some (os.Ok "/tries/2025-01-19-a-b", fs1)
    /\ workspace.Create 2 fs1 "/tries" "a b"
       = Some (os.Ok "/tries/2025-01-19-a-b-2", fs2).
Proof.
  apply (proj2 (proj2 (proj2 (Create_names fixtures.emptyFS "/tries" "a b"))));
    reflexivity.
Defined.

(** C6 as worded fails: the first candidate is a regular file, not a
    directory, and [Create] passes over it. *)
Lemma Create_counts_file_as_collision :
  ~ spec.CollisionOnlyForDirs fixtures.fileFS "/tries" "a b".
Proof.
  intros Hall.
  destruct (Hall 2%nat "/tries/2025-01-19-a-b-2"
              (os.newDir fixtures.fileFS "/tries/2025-01-19-a-b-2"))
    as (info & Hstat & Hdir).
  - reflexivity.
  - discriminate.
  - inversion Hstat; subst. discriminate Hdir.
Qed.

(* ------------------------------------------------------------------ *)
(** ** Matching the patterns                                           *)
(* ------------------------------------------------------------------ *)

Section Matching.
Variable cls : ascii -> bool.
Variable k : string -> option (list string).

(** A run of the class that cannot be extended is what a group takes, when
    the rest of the pattern accepts what follows. *)
Lemma group_takes_run (w : string) :
  forall taken rest m,
    spec.allBytes cls w = true ->
    match rest with "" => True | String c _ => cls c = false end ->
    taken ++ w <> "" ->
    k rest = Some m ->
    regexp.group cls k taken (w ++ rest) = Some ((taken ++ w) :: m).
Proof.
  induction w as [|a w IH]; intros taken rest m Hall Hrest Hne Hk.
  - cbn [append]. rewrite append_nil_r in *.
    destruct rest as [|c r]; cbn [regexp.group].
    + destruct taken; [congruence|]. now rewrite Hk.
    + rewrite Hrest. destruct taken; [congruence|]. now rewrite Hk.
  - cbn [spec.allBytes] in Hall. apply andb_true_iff in Hall. destruct Hall as [Ha Hw].
    cbn [append regexp.group]. rewrite Ha.
    rewrite (IH (taken ++ String a "") rest m); auto.
    + now rewrite append_assoc.
    + rewrite append_assoc. cbn [append]. destruct taken; discriminate.
Qed.

(** What a group took is a non-empty run of the class, and the rest of the
    pattern accepted what follows. *)
Lemma group_inv (s : string) :
  forall taken m,
    regexp.group cls k taken s = Some m ->
    exists w rest m',
      s = w ++ rest /\ spec.allBytes cls w = true /\ taken ++ w <> ""
      /\ k rest = Some m' /\ m = (taken ++ w) :: m'.
Proof.
  assert (Hstop : forall taken s m,
            match taken with
            | "" => None
            | _ => option_map (cons taken) (k s)
            end = Some m ->
            exists w rest m',
              s = w ++ rest /\ spec.allBytes cls w = true /\ taken ++ w <> ""
              /\ k rest = Some m' /\ m = (taken ++ w) :: m').
  { intros taken s0 m E. destruct taken as [|t ts]; [discriminate|].
    destruct (k s0) as [m'|] eqn:Ek; [|discriminate]. inversion E; subst.
    exists "", s0, m'. rewrite append_nil_r.
    repeat split; auto. discriminate. }
  induction s as [|a r IH]; intros taken m E; cbn [regexp.group] in E.
  - apply Hstop in E. exact E.
  - destruct (cls a) eqn:Ha; [|apply Hstop in E; exact E].
    destruct (regexp.group cls k (taken ++ String a "") r) as [m1|] eqn:Eg.
    + inversion E; subst.
      destruct (IH _ _ Eg) as (w & rest & m' & Hs & Hall & Hne & Hk & Hm).
      exists (String a w), rest, m'. subst.
      rewrite append_assoc in *. cbn [append spec.allBytes] in *.
      rewrite Ha. repeat split; auto.
    + apply Hstop in E. exact E.
Qed.
End Matching.

Lemma exec_lit (l : string) (re : regexp.Regexp) (s : string) :
  regexp.exec (regexp.lit l ++ re)%list (l ++ s) = regexp.exec re s.
Proof.
  induction l as [|c l IH]; [reflexivity|].
  cbn [regexp.lit list_ascii_of_string map app append regexp.exec].
  rewrite Ascii.eqb_refl. exact IH.
Qed.

Lemma exec_lit_inv (l : string) (re : regexp.Regexp) (s : string) (m : list string) :
  regexp.exec (regexp.lit l ++ re)%list s = Some m ->
  exists s', s = l ++ s' /\ regexp.exec re s' = Some m.
Proof.
  revert s. induction l as [|c l IH]; intros s E.
  - exists s. auto.
  - cbn [regexp.lit list_ascii_of_string map app regexp.exec] in E.
    destruct s as [|a r]; [discriminate|].
    destruct (Ascii.eqb_spec c a) as [->|]; [|discriminate].
    destruct (IH r E) as (s' & -> & E'). exists s'. auto.
Qed.

Lemma exec_end_inv (s : string) (m : list string) :
  regexp.exec [regexp.EndText] s = Some m -> s = "" /\ m = [].
Proof.
  cbn [regexp.exec]. destruct s; [|discriminate]. intros E; inversion E; auto.
Qed.

Lemma exec_group (cls : ascii -> bool) (re : regexp.Regexp) (w rest : string)
    (m : list string) :
  spec.allBytes cls w = true -> w <> "" ->
  match rest with "" => True | String c _ => cls c = false end ->
  regexp.exec re rest = Some m ->
  regexp.exec (regexp.Group cls :: re) (w ++ rest) = Some (w :: m).
Proof.
  intros Hall Hne Hrest Hk. cbn [regexp.exec].
  apply (group_takes_run cls (regexp.exec re) w "" rest m); auto.
Qed.

Lemma exec_group_inv (cls : ascii -> bool) (re : regexp.Regexp) (s : string)
    (m : list string) :
  regexp.exec (regexp.Group cls :: re) s = Some m ->
  exists w rest m',
    s = w ++ rest /\ spec.allBytes cls w = true /\ w <> ""
    /\ regexp.exec re rest = Some m' /\ m = w :: m'.
Proof.
  cbn [regexp.exec]. intros E.
  destruct (group_inv cls (regexp.exec re) s "" m E)
    as (w & rest & m' & Hs & Hall & Hne & Hk & Hm).
  exists w, rest, m'. auto.
Qed.

Lemma threeFields_match (sep : ascii) (s : string) (m : list string) :
  regexp.exec (spec.threeFields sep) s = Some m <->
  exists h us r,
    s = h ++ String sep "" ++ us ++ "/" ++ r
    /\ spec.field sep h /\ spec.field "/" us /\ spec.field "/" r
    /\ m = [h; us; r].
Proof.
  unfold spec.threeFields, spec.field. split.
  - intros E.
    apply exec_group_inv in E. destruct E as (h & s1 & m1 & -> & Hh & Hhn & E & ->).
    apply exec_lit_inv in E. destruct E as (s2 & -> & E).
    apply exec_group_inv in E. destruct E as (us & s3 & m2 & -> & Hu & Hun & E & ->).
    apply exec_lit_inv in E. destruct E as (s4 & -> & E).
    apply exec_group_inv in E. destruct E as (r & s5 & m3 & -> & Hr & Hrn & E & ->).
    apply exec_end_inv in E. destruct E as [-> ->].
    exists h, us, r. rewrite append_nil_r. auto 10.
  - intros (h & us & r & -> & [Hhn Hh] & [Hun Hu] & [Hrn Hr] & ->).
    apply exec_group; auto.
    { cbn [append]. unfold regexp.except. now rewrite Ascii.eqb_refl. }
    rewrite exec_lit.
    apply exec_group; auto.
    { cbn [append]. unfold regexp.except. now rewrite Ascii.eqb_refl. }
    rewrite exec_lit.
    rewrite <- (append_nil_r r) at 1.
    apply exec_group; auto.
Qed.

Lemma sshPattern_match (u : string) (m : list string) :
  regexp.exec workspace.sshPattern u = Some m <->
  exists h us r,
    u = "git@" ++ h ++ ":" ++ us ++ "/" ++ r
    /\ spec.field ":" h /\ spec.field "/" us /\ spec.field "/" r
    /\ m = [h; us; r].
Proof.
  change workspace.sshPattern with (regexp.lit "git@" ++ spec.threeFields ":")%list.
  split.
  - intros E. apply exec_lit_inv in E. destruct E as (s & -> & E).
    apply threeFields_match in E. destruct E as (h & us & r & -> & H).
    exists h, us, r. auto.
  - intros (h & us & r & -> & H). rewrite exec_lit.
    apply threeFields_match. exists h, us, r. auto.
Qed.

Lemma httpsPattern_match (u : string) (m : list string) :
  regexp.exec workspace.httpsPattern u = Some m <->
  exists h us r,
    (u = "http://" ++ h ++ "/" ++ us ++ "/" ++ r
     \/ u = "https://" ++ h ++ "/" ++ us ++ "/" ++ r)
    /\ spec.field "/" h /\ spec.field "/" us /\ spec.field "/" r
    /\ m = [h; us; r].
Proof.
  change workspace.httpsPattern
    with (regexp.lit "http"
            ++ regexp.OptByte (Ascii.eqb "s") :: regexp.lit "://" ++ spec.threeFields "/")%list.
  split.
  - intros E. apply exec_lit_inv in E. destruct E as (s & -> & E).
    cbn [regexp.exec] in E.
    assert (Hs : regexp.exec (regexp.lit "://" ++ spec.threeFields "/")%list s = Some m
                 \/ exists s', s = String "s" s'
                      /\ regexp.exec (regexp.lit "://" ++ spec.threeFields "/")%list s' = Some m).
    { destruct s as [|a s']; [left; exact E|].
      destruct (Ascii.eqb_spec "s"%char a) as [<-|]; [|left; exact E].
      destruct (regexp.exec (regexp.lit "://" ++ spec.threeFields "/")%list s') eqn:E';
        [right; exists s'; split; [reflexivity|congruence]|left; exact E]. }
    destruct Hs as [E1|(s' & -> & E1)];
      apply exec_lit_inv in E1; destruct E1 as (t & -> & E1);
      apply threeFields_match in E1; destruct E1 as (h & us & r & -> & H);
      exists h, us, r; (split; [|exact H]); [left|right]; reflexivity.
  - intros (h & us & r & [-> | ->] & H).
    + change ("http://" ++ h ++ "/" ++ us ++ "/" ++ r)
        with ("http" ++ "://" ++ h ++ "/" ++ us ++ "/" ++ r).
      rewrite exec_lit.
      change (regexp.exec (regexp.OptByte (Ascii.eqb "s")
                             :: regexp.lit "://" ++ spec.threeFields "/")%list
                ("://" ++ h ++ "/" ++ us ++ "/" ++ r))
        with (regexp.exec (regexp.lit "://" ++ spec.threeFields "/")%list
                ("://" ++ h ++ "/" ++ us ++ "/" ++ r)).
      rewrite exec_lit. apply threeFields_match. exists h, us, r. auto.
    + change ("https://" ++ h ++ "/" ++ us ++ "/" ++ r)
        with ("http" ++ String "s" ("://" ++ h ++ "/" ++ us ++ "/" ++ r)).
      rewrite exec_lit. cbn [regexp.exec].
      rewrite Ascii.eqb_refl, exec_lit.
      assert (E : regexp.exec (spec.threeFields "/") (h ++ "/" ++ us ++ "/" ++ r)
                  = Some m) by (apply threeFields_match; exists h, us, r; auto).
      now rewrite E.
Qed.

(* ------------------------------------------------------------------ *)
(** ** Parsing a git URL                                               *)
(* ------------------------------------------------------------------ *)

Lemma rev_append (a b : string) :
  strings.rev (a ++ b) = strings.rev b ++ strings.rev a.
Proof.
  induction a as [|c a IH]; cbn [append strings.rev].
  - now rewrite append_nil_r.
  - now rewrite IH, append_assoc.
Qed.

Lemma rev_rev (a : string) : strings.rev (strings.rev a) = a.
Proof.
  induction a as [|c a IH]; [reflexivity|].
  cbn [strings.rev]. rewrite rev_append, IH. reflexivity.
Qed.

Lemma CutPrefix_append (p s : string) : strings.CutPrefix (p ++ s) p = Some s.
Proof.
  induction p as [|c p IH]; [reflexivity|].
  cbn [append strings.CutPrefix]. now rewrite Ascii.eqb_refl.
Qed.

(** One trailing suffix is removed. *)
Lemma TrimSuffix_append (u suffix : string) :
  strings.TrimSuffix (u ++ suffix) suffix = u.
Proof.
  unfold strings.TrimSuffix. rewrite rev_append, CutPrefix_append. apply rev_rev.
Qed.

Lemma parsed_eta (p : workspace.ParsedURL) :
  workspace.parsed [workspace.Host p; workspace.User p; workspace.Repo p] = p.
Proof. destruct p; reflexivity. Qed.

Lemma ParseGitURL_Ok (url : string) (p : workspace.ParsedURL) :
  workspace.ParseGitURL url = os.Ok p <->
  spec.sshShape (strings.TrimSuffix url ".git") p
  \/ spec.httpShape (strings.TrimSuffix url ".git") p.
Proof.
  unfold workspace.ParseGitURL, regexp.FindStringSubmatch.
  set (u := strings.TrimSuffix url ".git"). split.
  - destruct (regexp.exec workspace.sshPattern u) as [m|] eqn:E1.
    + intros E; inversion E; subst. left.
      apply sshPattern_match in E1. destruct E1 as (h & us & r & Hu & Hh & Hus & Hr & ->).
      unfold spec.sshShape. cbn. auto.
    + destruct (regexp.exec workspace.httpsPattern u) as [m|] eqn:E2; [|discriminate].
      intros E; inversion E; subst. right.
      apply httpsPattern_match in E2. destruct E2 as (h & us & r & Hu & Hh & Hus & Hr & ->).
      unfold spec.httpShape. cbn. auto.
  - intros [(Hu & Hh & Hus & Hr) | (Hu & Hh & Hus & Hr)].
    + assert (E : regexp.exec workspace.sshPattern u
                  = Some [workspace.Host p; workspace.User p; workspace.Repo p]).
      { apply sshPattern_match. eauto 10. }
      rewrite E. now rewrite parsed_eta.
    + destruct (regexp.exec workspace.sshPattern u) as [m|] eqn:E1.
      { apply sshPattern_match in E1. destruct E1 as (h & us & r & Hu' & _).
        rewrite Hu' in Hu. destruct Hu; discriminate. }
      assert (E : regexp.exec workspace.httpsPattern u
                  = Some [workspace.Host p; workspace.User p; workspace.Repo p]).
      { apply httpsPattern_match. eauto 10. }
      rewrite E. now rewrite parsed_eta.
Qed.

(** C7, amended: [ParseGitURL] removes one trailing [.git] and accepts
    exactly [git@HOST:USER/REPO], with a non-empty HOST free of [:] and
    non-empty USER and REPO free of [/], and [http://HOST/USER/REPO] or
    [https://HOST/USER/REPO], with all three non-empty and free of [/];
    every other input is an error.  The three examples of the
    specification come out as it says. *)
Theorem ParseGitURL_shapes :
  (forall url p,
     workspace.ParseGitURL url = os.Ok p <->
     spec.sshShape (strings.TrimSuffix url ".git") p
     \/ spec.httpShape (strings.TrimSuffix url ".git") p)
  /\ (forall url,
        (forall p, ~ (spec.sshShape (strings.TrimSuffix url ".git") p
                      \/ spec.httpShape (strings.TrimSuffix url ".git") p)) ->
        workspace.ParseGitURL url
        = os.Err (os.Errorf ("unable to parse git URL: "
                               ++ strings.TrimSuffix url ".git")))
  /\ (forall u, strings.TrimSuffix (u ++ ".git") ".git" = u)
  /\ workspace.ParseGitURL "git@github.com:tobi/try.git"
     = os.Ok {| workspace.User := "tobi"; workspace.Repo := "try";
                workspace.Host := "github.com" |}
  /\ workspace.ParseGitURL "https://gitlab.com/user/project"
     = os.Ok {| workspace.User := "user"; workspace.Repo := "project";
                workspace.Host := "gitlab.com" |}
  /\ workspace.ParseGitURL "not-a-url"
     = os.Err (os.Errorf "unable to parse git URL: not-a-url").
Proof.
  split; [exact ParseGitURL_Ok|]. split; [|split; [|repeat split]].
  - intros url Hnone.
    destruct (workspace.ParseGitURL url) as [p|e] eqn:E.
    + apply ParseGitURL_Ok in E. elim (Hnone p E).
    + revert E. unfold workspace.ParseGitURL.
      destruct (regexp.FindStringSubmatch workspace.sshPattern _); [discriminate|].
      destruct (regexp.FindStringSubmatch workspace.httpsPattern _); [discriminate|].
      congruence.
  - intros u. apply TrimSuffix_append.
Qed.

(** A plain-http URL with the suffix is accepted through its shape. *)
Lemma ParseGitURL_shapes_witness :
  workspace.ParseGitURL "http://example.org/team/tool.git"
  = os.Ok {| workspace.User := "team"; workspace.Repo := "tool";
             workspace.Host := "example.org" |}.
Proof.
  apply (proj2 (proj1 ParseGitURL_shapes "http://example.org/team/tool.git" _)).
  right. unfold spec.httpShape, spec.field. cbn.
  repeat split; (discriminate || auto).
Defined.

(** C7 as worded fails: the host of an accepted SSH URL may hold a [/]. *)
Lemma ParseGitURL_host_with_slash :
  ~ spec.ParsedFieldsHaveNoSlash.
Proof.
  intros Hall.
  destruct (Hall "git@a/b:u/r"
              {| workspace.User := "u"; workspace.Repo := "r";
                 workspace.Host := "a/b" |} eq_refl)
    as [[_ Hhost] _].
  discriminate Hhost.
Qed.

(* ------------------------------------------------------------------ *)
(** ** The score                                                       *)
(* ------------------------------------------------------------------ *)

(** The score is [3.0 / sqrt(hours + 1)], with [2.0] added for a name the
    date pattern matches; [sqrt] is the function of the package. *)
Lemma baseScoreOf_formula :
  forall (now mtime : time.Time) (name : string),
    workspace.baseScoreOf now mtime name
    = let base :=
        (3.0 / workspace.sqrt (time.Hours (time.Sub now mtime) + 1))%float in
      if regexp.MatchString workspace.datePrefix name
      then (base + 2.0)%float else base.
Proof. reflexivity. Qed.

Lemma exec_byte_inv (cls : ascii -> bool) (re : regexp.Regexp) (s : string)
    (m : list string) :
  regexp.exec (regexp.Byte cls :: re) s = Some m ->
  exists a r, s = String a r /\ cls a = true /\ regexp.exec re r = Some m.
Proof.
  cbn [regexp.exec]. destruct s as [|a r]; [discriminate|].
  destruct (cls a) eqn:Ha; [|discriminate]. intros E. exists a, r. auto.
Qed.

(** The date pattern matches the names that start with four digits, a dash,
    two digits, a dash, two digits and a dash. *)
Lemma datePrefix_match :
  forall name : string,
    regexp.MatchString workspace.datePrefix name = true <->
    exists y1 y2 y3 y4 m1 m2 d1 d2 rest,
      name = String y1 (String y2 (String y3 (String y4 (String "-"
               (String m1 (String m2 (String "-"
                 (String d1 (String d2 (String "-" rest))))))))))
      /\ forallb regexp.digit [y1; y2; y3; y4; m1; m2; d1; d2] = true.
Proof.
  intros name. unfold regexp.MatchString. split.
  - destruct (regexp.exec workspace.datePrefix name) as [m|] eqn:E; [|discriminate].
    intros _. unfold workspace.datePrefix in E.
    cbn [repeat app regexp.lit list_ascii_of_string map] in E.
    repeat match type of E with
           | regexp.exec (regexp.Byte _ :: _) _ = Some _ =>
               apply exec_byte_inv in E;
               let a := fresh "a" in
               let r := fresh "r" in
               let Ha := fresh "Ha" in
               destruct E as (a & r & -> & Ha & E)
           end.
    apply Ascii.eqb_eq in Ha3, Ha6, Ha9. subst.
    do 9 eexists. split; [reflexivity|].
    cbn [forallb]. now rewrite Ha, Ha0, Ha1, Ha2, Ha4, Ha5, Ha7, Ha8.
  - intros (y1 & y2 & y3 & y4 & m1 & m2 & d1 & d2 & rest & -> & Hd).
    cbn [forallb] in Hd.
    repeat (apply andb_true_iff in Hd; destruct Hd as [? Hd]).
    unfold workspace.datePrefix.
    cbn [repeat app regexp.lit list_ascii_of_string map regexp.exec].
    repeat match goal with H : regexp.digit _ = true |- _ => rewrite H; clear H end.
    reflexivity.
Qed.

(** C8, at the failing input: at noon of 2025-01-19 a directory last
    modified at the Unix epoch is 482580 hours old; on 482581 the ten Newton
    steps of [sqrt] end above 698, while the square root is below 695, and
    the score is computed from the former. *)
Theorem sqrt_misses_for_old_directory :
  let x := (time.Hours (time.Sub fixtures.noon 0%Z) + 1)%float in
  (x =? 482581)%float = true
  /\ (698 <? workspace.sqrt x)%float = true
  /\ (PrimFloat.sqrt x <? 695)%float = true
  /\ workspace.baseScoreOf fixtures.noon 0%Z "old"
     = (3.0 / workspace.sqrt x)%float
  /\ (workspace.baseScoreOf fixtures.noon 0%Z "old"
        <? 3.0 / PrimFloat.sqrt x - 0x1p-16)%float = true.
Proof.
  cbv zeta. repeat split; vm_compute; reflexivity.
Qed.

(** On small inputs the ten steps do reach the square root. *)
Lemma sqrt_close_for_recent_directory :
  workspace.sqrt 4 = 2%float /\ workspace.sqrt 25 = 5%float
  /\ (PrimFloat.abs (workspace.sqrt 2 - PrimFloat.sqrt 2) <? 0x1p-50)%float = true.
Proof. repeat split; vm_compute; reflexivity. Qed.

(* ================================================================== *)
(** * Further properties of the code                                   *)
(* ================================================================== *)

(* ------------------------------------------------------------------ *)
(** ** The script                                                      *)
(* ------------------------------------------------------------------ *)

Lemma shWord_escaped_quote (x : string) :
  spec.shWord spec.InSingle (strings.bytes [39; 34; 39; 34; 39] ++ x)
  = option_map (String "'") (spec.shWord spec.InSingle x).
Proof. reflexivity. Qed.

Lemma shWord_single_body (s : string) :
  spec.shWord spec.InSingle
    (strings.ReplaceAll s "'" (strings.bytes [39; 34; 39; 34; 39]) ++ "'")
  = Some s.
Proof.
  induction s as [|c s IH]; [reflexivity|].
  cbn [strings.ReplaceAll]. rewrite append_assoc.
  destruct (Ascii.eqb_spec c "'") as [->|Hc].
  - rewrite shWord_escaped_quote, IH. reflexivity.
  - cbn [append spec.shWord]. apply Ascii.eqb_neq in Hc. rewrite Hc, IH. reflexivity.
Qed.

Lemma fishWord_escaped_quote (x : string) :
  spec.fishWord spec.InSingle (strings.bytes [39; 34; 39; 34; 39] ++ x)
  = option_map (String "'") (spec.fishWord spec.InSingle x).
Proof. reflexivity. Qed.

Lemma fishWord_plain_byte (c : ascii) (x : string) :
  Ascii.eqb c "'" = false -> Ascii.eqb c "\" = false ->
  spec.fishWord spec.InSingle (String c x)
  = option_map (String c) (spec.fishWord spec.InSingle x).
Proof. intros H1 H2. cbn [spec.fishWord]. now rewrite H1, H2. Qed.

Lemma fishWord_single_body (s tail : string) (r : option string) :
  spec.noBackslash s = true ->
  spec.fishWord spec.InSingle tail = r ->
  spec.fishWord spec.InSingle
    (strings.ReplaceAll s "'" (strings.bytes [39; 34; 39; 34; 39]) ++ tail)
  = option_map (append s) r.
Proof.
  intros Hs Ht. induction s as [|c s IH].
  - cbn [strings.ReplaceAll append]. rewrite Ht. now destruct r.
  - cbn [spec.noBackslash spec.allBytes] in Hs. apply andb_true_iff in Hs.
    destruct Hs as [Hc Hs]. apply negb_true_iff in Hc.
    cbn [strings.ReplaceAll]. rewrite append_assoc.
    destruct (Ascii.eqb_spec c "'") as [->|Hq].
    + rewrite fishWord_escaped_quote, (IH Hs). now destruct r.
    + apply Ascii.eqb_neq in Hq. cbn [append].
      rewrite (fishWord_plain_byte _ _ Hq Hc), (IH Hs). now destruct r.
Qed.

Lemma ReplaceAll_snoc_backslash (s : string) :
  strings.ReplaceAll (s ++ "\") "'" (strings.bytes [39; 34; 39; 34; 39])
  = strings.ReplaceAll s "'" (strings.bytes [39; 34; 39; 34; 39]) ++ "\".
Proof.
  induction s as [|c s IH]; [reflexivity|].
  cbn [append strings.ReplaceAll]. rewrite IH.
  destruct (Ascii.eqb c "'"); now rewrite ?append_assoc.
Qed.

(** X1: What [quote] writes is read by a POSIX shell ([sh], [bash], [zsh]) as
    one word, the string that was quoted, whatever bytes it holds.  [fish]
    reads it as that string when the string has no backslash; a string
    whose only backslash is its last byte is read by [fish] as a quote left
    open. *)
Theorem quote_read_back :
  (forall s : string, spec.shWord spec.Bare (shell.quote s) = Some s)
  /\ (forall s : string,
        spec.noBackslash s = true ->
        spec.fishWord spec.Bare (shell.quote s) = Some s)
  /\ (forall s : string,
        spec.noBackslash s = true ->
        spec.fishWord spec.Bare (shell.quote (s ++ "\")) = None).
Proof.
  split; [|split].
  - intros s. unfold shell.quote. cbn [append spec.shWord].
    change (Ascii.eqb "'" "'") with true. cbv iota.
    apply shWord_single_body.
  - intros s Hs. unfold shell.quote. cbn [append spec.fishWord].
    change (Ascii.eqb "'" "'") with true. cbv iota.
    rewrite (fishWord_single_body s "'" (Some "") Hs eq_refl).
    cbn [option_map]. now rewrite append_nil_r.
  - intros s Hs. unfold shell.quote. cbn [append spec.fishWord].
    change (Ascii.eqb "'" "'") with true. cbv iota.
    rewrite ReplaceAll_snoc_backslash, append_assoc.
    now rewrite (fishWord_single_body s ("\" ++ "'") None Hs eq_refl).
Qed.

(** A name with an apostrophe is read back by [fish]; a name that ends in
    a backslash is not. *)
Lemma quote_read_back_witness :
  spec.fishWord spec.Bare (shell.quote "it's") = Some "it's"
  /\ spec.fishWord spec.Bare (shell.quote "C:\") = None.
Proof.
  destruct quote_read_back as (_ & Hfish & Hopen). split.
  - apply Hfish. reflexivity.
  - apply (Hopen "C:"). reflexivity.
Defined.

Lemma writeCommands_later (commands : list string) :
  forall i, i <> 0%nat -> commands <> [] ->
    shell.writeCommands i commands
    = "  " ++ String.concat (" && \" ++ shell.newline ++ "  ") commands
        ++ shell.newline.
Proof.
  induction commands as [|cmd rest IH]; intros i Hi Hne; [congruence|].
  cbn [shell.writeCommands].
  destruct i as [|i]; [congruence|]. cbn [Nat.eqb].
  destruct rest as [|cmd' rest'].
  - cbn [shell.writeCommands String.concat]. now rewrite !append_assoc, append_nil_r.
  - rewrite (IH (S (S i))) by congruence.
    change (String.concat ?sep (cmd :: cmd' :: rest'))
      with (cmd ++ sep ++ String.concat sep (cmd' :: rest')).
    now rewrite !append_assoc.
Qed.

(** X2: An empty script renders as the empty text.  Any other script renders as
    the warning line, then its commands in order, each but the last ending
    in [ && \] and each but the first indented by two spaces, one per
    line. *)
Theorem String_layout :
  shell.String [] = ""
  /\ forall cmd rest,
       shell.String (cmd :: rest)
       = shell.scriptWarning ++ shell.newline
           ++ String.concat (" && \" ++ shell.newline ++ "  ") (cmd :: rest)
           ++ shell.newline.
Proof.
  split; [reflexivity|]. intros cmd rest.
  unfold shell.String. do 2 f_equal.
  cbn [shell.writeCommands Nat.eqb].
  destruct rest as [|cmd' rest']; [reflexivity|].
  rewrite (writeCommands_later (cmd' :: rest') 1) by congruence.
  change (String.concat ?sep (cmd :: cmd' :: rest'))
    with (cmd ++ sep ++ String.concat sep (cmd' :: rest')).
  now rewrite !append_assoc.
Qed.

Lemma fold_AddRm (basePath : string) (paths : list string) :
  forall s : shell.Script,
    fold_left (fun s p => shell.AddRm s p basePath) paths s
    = (s ++ map spec.rmCommand paths)%list.
Proof.
  induction paths as [|p paths IH]; intros s; cbn [fold_left map].
  - now rewrite app_nil_r.
  - rewrite IH. unfold shell.AddRm, shell.Add, spec.rmCommand.
    now rewrite <- app_assoc.
Qed.

(** X3: The delete script enters the base directory, then runs
    [test -d P && rm -rf P] for each path in the order given, then the
    closing [cd]; the base directory appears in the first command only, and
    no path is compared with it. *)
Theorem Delete_script_commands :
  forall (paths : list string) (basePath : string),
    shell.Delete paths basePath
    = shell.String
        (("cd " ++ shell.quote basePath)
           :: (map spec.rmCommand paths ++ [shell.stayOrHome])%list).
Proof.
  intros paths basePath. unfold shell.Delete. rewrite fold_AddRm.
  reflexivity.
Qed.

(* ------------------------------------------------------------------ *)
(** ** Git URLs: recognising and parsing                               *)
(* ------------------------------------------------------------------ *)

Lemma CutPrefix_Some (p s r : string) :
  strings.CutPrefix s p = Some r -> s = p ++ r.
Proof.
  revert s. induction p as [|a p IH]; intros s E; cbn [strings.CutPrefix] in E.
  - inversion E; reflexivity.
  - destruct s as [|b s]; [discriminate|].
    destruct (Ascii.eqb_spec a b) as [->|]; [|discriminate].
    cbn [append]. f_equal. auto.
Qed.

Lemma HasPrefix_append (p s : string) : strings.HasPrefix (p ++ s) p = true.
Proof. unfold strings.HasPrefix. now rewrite CutPrefix_append. Qed.

(** What [TrimSuffix] returns is the string itself or the string without
    the suffix. *)
Lemma TrimSuffix_cases (url suffix : string) :
  url = strings.TrimSuffix url suffix
  \/ url = strings.TrimSuffix url suffix ++ suffix.
Proof.
  unfold strings.TrimSuffix.
  destruct (strings.CutPrefix (strings.rev url) (strings.rev suffix)) as [r|] eqn:E;
    [right|left; reflexivity].
  apply CutPrefix_Some in E.
  rewrite <- (rev_rev url), E, rev_append, rev_rev. reflexivity.
Qed.

Lemma TrimSuffix_absent (s suffix : string) :
  strings.HasSuffix s suffix = false -> strings.TrimSuffix s suffix = s.
Proof.
  unfold strings.HasSuffix, strings.HasPrefix, strings.TrimSuffix.
  destruct (strings.CutPrefix _ _); [discriminate|reflexivity].
Qed.

(** X4: Every URL that [ParseGitURL] accepts is one that [IsGitURL]
    recognises, so the clone path of the command line is taken for all of
    them. *)
Theorem IsGitURL_covers_ParseGitURL :
  forall (url : string) (p : workspace.ParsedURL),
    workspace.ParseGitURL url = os.Ok p -> workspace.IsGitURL url = true.
Proof.
  intros url p E. apply ParseGitURL_Ok in E.
  assert (Hpre : strings.HasPrefix url "git@" = true
                 \/ strings.HasPrefix url "http://" = true
                 \/ strings.HasPrefix url "https://" = true).
  { set (u := strings.TrimSuffix url ".git") in *.
    assert (Hu : forall pre rest, u = pre ++ rest -> strings.HasPrefix url pre = true).
    { intros pre rest Hu.
      destruct (TrimSuffix_cases url ".git") as [E'|E']; fold u in E'; rewrite E', Hu.
      - apply HasPrefix_append.
      - rewrite append_assoc. apply HasPrefix_append. }
    destruct E as [(Hs & _) | ([Hh|Hh] & _)].
    - left. exact (Hu "git@" _ Hs).
    - right; left. exact (Hu "http://" _ Hh).
    - right; right. exact (Hu "https://" _ Hh). }
  unfold workspace.IsGitURL.
  destruct Hpre as [H|[H|H]]; rewrite H; [reflexivity| |].
  - destruct (strings.HasPrefix url "git@"); [reflexivity|].
    now rewrite orb_true_r.
  - destruct (strings.HasPrefix url "git@"); reflexivity.
Qed.

Lemma IsGitURL_covers_ParseGitURL_witness :
  workspace.IsGitURL "git@git.company.com:team/repo.git" = true.
Proof.
  apply (IsGitURL_covers_ParseGitURL "git@git.company.com:team/repo.git"
           {| workspace.User := "team"; workspace.Repo := "repo";
              workspace.Host := "git.company.com" |}).
  reflexivity.
Defined.

(** X5: A trailing [.git] makes no difference: a URL that does not already end
    in [.git] parses, and names its clone directory, the same with the
    suffix added. *)
Theorem ParseGitURL_ignores_git_suffix :
  forall (fs : os.FS) (u : string),
    strings.HasSuffix u ".git" = false ->
    workspace.ParseGitURL (u ++ ".git") = workspace.ParseGitURL u
    /\ workspace.CloneDirName fs (u ++ ".git") = workspace.CloneDirName fs u.
Proof.
  intros fs u Hs.
  assert (E : workspace.ParseGitURL (u ++ ".git") = workspace.ParseGitURL u).
  { unfold workspace.ParseGitURL.
    now rewrite TrimSuffix_append, (TrimSuffix_absent u ".git" Hs). }
  split; [exact E|]. unfold workspace.CloneDirName. now rewrite E.
Qed.

Lemma ParseGitURL_ignores_git_suffix_witness :
  workspace.ParseGitURL ("https://github.com/tobi/try" ++ ".git")
  = workspace.ParseGitURL "https://github.com/tobi/try"
  /\ workspace.CloneDirName fixtures.emptyFS ("https://github.com/tobi/try" ++ ".git")
     = workspace.CloneDirName fixtures.emptyFS "https://github.com/tobi/try".
Proof.
  apply (ParseGitURL_ignores_git_suffix fixtures.emptyFS "https://github.com/tobi/try").
  reflexivity.
Defined.

(** X6: When [Clone] succeeds, the path it cloned into is the one [CloneScript]
    announces for the same URL: the base path, a separator and the first
    free candidate of the clone directory name. *)
Theorem Clone_agrees_with_CloneScript :
  forall (fuel : nat) (fs fs' : os.FS) (basePath url path : string),
    workspace.Clone fuel fs basePath url = Some (os.Ok path, fs') ->
    workspace.CloneScript fuel fs basePath url = Some (os.Ok (path, url))
    /\ exists dirName k,
         workspace.CloneDirName fs url = os.Ok dirName
         /\ spec.firstFree fs basePath dirName k
         /\ path = basePath ++ "/" ++ spec.candidate dirName k.
Proof.
  intros fuel fs fs' basePath url path.
  unfold workspace.Clone, workspace.CloneScript.
  destruct (workspace.CloneDirName fs url) as [dirName|e]; [|discriminate].
  destruct (workspace.uniqueName fuel fs basePath dirName) as [c|] eqn:Eu;
    [|discriminate].
  destruct (os.gitCloneErr fs url _); [discriminate|].
  intros E; inversion E; subst. split; [reflexivity|].
  destruct (uniqueName_inv _ _ _ _ _ Eu) as (k & _ & Hff & ->).
  exists dirName, k. auto.
Qed.

Lemma Clone_agrees_with_CloneScript_witness :
  workspace.CloneScript 1 fixtures.emptyFS "/tries" "git@github.com:tobi/try.git"
  = Some (os.Ok ("/tries/2025-01-19-tobi-try", "git@github.com:tobi/try.git")).
Proof.
  apply (Clone_agrees_with_CloneScript 1 fixtures.emptyFS
           (os.newDir fixtures.emptyFS "/tries/2025-01-19-tobi-try")
           "/tries" "git@github.com:tobi/try.git" "/tries/2025-01-19-tobi-try").
  reflexivity.
Defined.

(* ------------------------------------------------------------------ *)
(** ** What creating and deleting do to the system                     *)
(* ------------------------------------------------------------------ *)

Lemma Create_post :
  forall (fuel : nat) (fs fs' : os.FS) (basePath rawName path : string),
    workspace.Create fuel fs basePath rawName = Some (os.Ok path, fs') ->
    os.IsNotExist (os.errOf (os.Stat fs path)) = true
    /\ (exists info, os.Stat fs' path = os.Ok info /\ os.fi_IsDir info = true)
    /\ exists k,
         path = filepath.Join
                  [basePath; spec.candidate (spec.createName fs rawName) k].
Proof.
  intros fuel fs fs' basePath rawName path E. rewrite Create_unfold in E.
  destruct (workspace.uniqueName fuel fs basePath (spec.createName fs rawName))
    as [c|] eqn:Eu; [|discriminate].
  destruct (uniqueName_inv _ _ _ _ _ Eu) as (k & _ & [Hfree _] & ->).
  unfold spec.free in Hfree. rewrite (MkdirAll_free _ _ Hfree) in E.
  destruct (os.mkdirAllErr fs _); inversion E; subst.
  split; [exact Hfree|]. split; [|eauto].
  eexists. unfold os.Stat, os.newDir, os.withStat. cbn [os.stat].
  rewrite String.eqb_refl. split; reflexivity.
Qed.

(** X7: When [Create] returns a path, [os.Stat] answered for that path that it
    does not exist before the call and answers with a directory after it,
    and the path is the base path joined with a candidate of the
    date-prefixed name. *)
Theorem Create_makes_fresh_directory :
  forall (fuel : nat) (fs fs' : os.FS) (basePath rawName path : string),
    workspace.Create fuel fs basePath rawName = Some (os.Ok path, fs') ->
    os.IsNotExist (os.errOf (os.Stat fs path)) = true
    /\ (exists info, os.Stat fs' path = os.Ok info /\ os.fi_IsDir info = true)
    /\ exists k,
         path = filepath.Join
                  [basePath; spec.candidate (spec.createName fs rawName) k].
Proof. exact Create_post. Qed.

Lemma Create_makes_fresh_directory_witness :
  os.IsNotExist (os.errOf (os.Stat fixtures.fileFS "/tries/2025-01-19-a-b-2")) = true
  /\ exists info,
       os.Stat (os.newDir fixtures.fileFS "/tries/2025-01-19-a-b-2")
         "/tries/2025-01-19-a-b-2" = os.Ok info
       /\ os.fi_IsDir info = true.
Proof.
  destruct (Create_makes_fresh_directory 2 fixtures.fileFS
              (os.newDir fixtures.fileFS "/tries/2025-01-19-a-b-2")
              "/tries" "a b" "/tries/2025-01-19-a-b-2" eq_refl)
    as (H1 & H2 & _).
  split; [exact H1|exact H2].
Defined.

(** X8: Two calls of [Create], one after the other, never return the same
    path, whatever the two names are. *)
Theorem Create_twice_differs :
  forall (fuel1 fuel2 : nat) (fs fs1 fs2 : os.FS)
         (basePath name1 name2 path1 path2 : string),
    workspace.Create fuel1 fs basePath name1 = Some (os.Ok path1, fs1) ->
    workspace.Create fuel2 fs1 basePath name2 = Some (os.Ok path2, fs2) ->
    path1 <> path2.
Proof.
  intros fuel1 fuel2 fs fs1 fs2 basePath name1 name2 path1 path2 E1 E2 Heq.
  apply Create_post in E1. destruct E1 as (_ & (info & Hdir & _) & _).
  apply Create_post in E2. destruct E2 as (Hfresh & _).
  subst path2. rewrite Hdir in Hfresh. discriminate Hfresh.
Qed.

Lemma Create_twice_differs_witness :
  "/tries/2025-01-19-test" <> "/tries/2025-01-19-test-2".
Proof.
  apply (Create_twice_differs 1 2 fixtures.emptyFS
           (os.newDir fixtures.emptyFS "/tries/2025-01-19-test")
           (os.newDir (os.newDir fixtures.emptyFS "/tries/2025-01-19-test")
              "/tries/2025-01-19-test-2")
           "/tries" "test" "test"); reflexivity.
Defined.

Lemma append_length (a b : string) :
  String.length (a ++ b) = (String.length a + String.length b)%nat.
Proof. induction a as [|c a IH]; cbn; [reflexivity|now rewrite IH]. Qed.

Lemma HasPrefix_length (s p : string) :
  strings.HasPrefix s p = true -> (String.length p <= String.length s)%nat.
Proof.
  unfold strings.HasPrefix.
  destruct (strings.CutPrefix s p) as [r|] eqn:E; [|discriminate].
  intros _. apply CutPrefix_Some in E. subst. rewrite append_length. lia.
Qed.

(** A path strictly below [base] is not [base], and [base] is not below
    it. *)
Lemma below_base (base target : string) :
  strings.HasPrefix target (base ++ "/") = true ->
  (base =? target) = false /\ strings.HasPrefix base (target ++ "/") = false.
Proof.
  intros H. apply HasPrefix_length in H. rewrite append_length in H. cbn in H.
  split.
  - apply String.eqb_neq. intros ->. lia.
  - destruct (strings.HasPrefix base (target ++ "/")) eqn:E; [|reflexivity].
    apply HasPrefix_length in E. rewrite append_length in E. cbn in E. lia.
Qed.

(** X9: When [Delete] reports no error, both paths were resolved, the resolved
    target lies strictly below the resolved base and is not the base, the
    one removal [Delete] asked for is that of the resolved target, and the
    target and the paths below it no longer exist. *)
Theorem Delete_removes_target_below_base :
  forall (fs fs' : os.FS) (basePath path : string),
    workspace.Delete fs basePath path = (None, fs') ->
    exists realBase realTarget,
      spec.resolved fs basePath path = Some (realBase, realTarget)
      /\ strings.HasPrefix realTarget (realBase ++ "/") = true
      /\ realTarget <> realBase
      /\ os.RemoveAll fs realTarget = (None, fs')
      /\ os.IsNotExist (os.errOf (os.Stat fs' realTarget)) = true
      /\ (forall q, strings.HasPrefix q (realTarget ++ "/") = true ->
                    os.IsNotExist (os.errOf (os.Stat fs' q)) = true).
Proof.
  intros fs fs' basePath path E.
  destruct (Delete_cases fs basePath path)
    as [[e E']|(realBase & realTarget & Hres & Hpre & E')];
    rewrite E' in E; [discriminate|].
  exists realBase, realTarget. split; [exact Hres|]. split; [exact Hpre|].
  split.
  { destruct (below_base _ _ Hpre) as [Hne _]. apply String.eqb_neq in Hne.
    congruence. }
  split; [exact E|].
  unfold os.RemoveAll in E.
  destruct (os.removeAllErr fs realTarget); inversion E; subst.
  unfold os.Stat, os.withStat; cbn [os.stat].
  split; [now rewrite String.eqb_refl|].
  intros q Hq. now rewrite Hq, orb_true_r.
Qed.

Lemma Delete_removes_target_below_base_witness :
  exists realBase realTarget,
    spec.resolved fixtures.emptyFS "/tries" "/tries/old"
      = Some (realBase, realTarget)
    /\ strings.HasPrefix realTarget (realBase ++ "/") = true
    /\ os.IsNotExist
         (os.errOf (os.Stat (snd (os.RemoveAll fixtures.emptyFS "/tries/old"))
                      realTarget)) = true.
Proof.
  destruct (Delete_removes_target_below_base fixtures.emptyFS
              (snd (os.RemoveAll fixtures.emptyFS "/tries/old"))
              "/tries" "/tries/old" eq_refl)
    as (realBase & realTarget & H1 & H2 & _ & _ & H3 & _).
  exists realBase, realTarget. auto.
Defined.

(** X10: Asked to delete the base directory itself, [Delete] always refuses:
    it returns an error and removes nothing. *)
Theorem Delete_refuses_base_itself :
  forall (fs : os.FS) (basePath : string),
    exists e, workspace.Delete fs basePath basePath = (Some e, fs).
Proof.
  intros fs basePath.
  destruct (Delete_cases fs basePath basePath)
    as [H|(realBase & realTarget & Hres & Hpre & _)]; [exact H|].
  exfalso. unfold spec.resolved in Hres.
  destruct (filepath.Abs fs basePath) as [absBase|]; [|discriminate].
  destruct (filepath.EvalSymlinks fs absBase) as [real|]; [|discriminate].
  inversion Hres; subst.
  destruct (below_base _ _ Hpre) as [Hne _].
  now rewrite String.eqb_refl in Hne.
Qed.

(* ------------------------------------------------------------------ *)
(** ** The session and its intent                                      *)
(* ------------------------------------------------------------------ *)

Section SessionFacts.
Context {L : Type} `{tui.ListModel L}.
Implicit Types m : tui.Model L.

Lemma toList_more m msg m' cmd :
  tui.toList m msg = (m', cmd) ->
  tui.err m' = tui.err m /\ tui.basePath m' = tui.basePath m.
Proof.
  unfold tui.toList. destruct (tui.list_Update (tui.list m) msg) as [l c].
  intros E; inversion E; subst; simpl; auto.
Qed.

(** Every way [Update] has of setting the action. *)
Lemma Update_sets_action m msg m' cmd a :
  tui.action m = None ->
  tui.Update m msg = (m', cmd) ->
  tui.action m' = Some a ->
  cmd = tea.Quit
  /\ exists k,
       msg = tui.KeyMsg k
       /\ ((tui.state m = tui.StateSelector /\ a = tui.cancel)
           \/ (tui.state m = tui.StateSelector
               /\ exists i,
                    tui.list_SelectedItem (tui.list m) = Some i
                    /\ a = spec.cdIntent (workspace.Path (tui.entry i))
                             (tui.basePath m))
           \/ (tui.state m = tui.StateSelector
               /\ tui.list_FilterValue (tui.list m) <> ""
               /\ a = spec.createIntent (tui.list_FilterValue (tui.list m))
                        (tui.basePath m))
           \/ (tui.state m = tui.StateDeleteConfirm
               /\ tea.Type_ k = tea.KeyEnter
               /\ tui.deleteConfirm m = "YES"
               /\ a = spec.deleteIntent (tui.deleteTarget m) (tui.basePath m))).
Proof.
  intros Hnone HU Ha.
  assert (Hlist : forall msg0, tui.toList m msg0 = (m', cmd) -> False).
  { intros msg0 E. apply toList_fields in E. destruct E as (_ & _ & _ & E).
    congruence. }
  destruct msg as [k|w h|es|e|id]; simpl in HU;
    try (inversion HU; subst; simpl in Ha; congruence);
    try (elim (Hlist _ HU)).
  unfold tui.handleKey in HU.
  destruct (tui.state m) eqn:Es.
  - destruct (tea.String k =? "ctrl+c").
    { inversion HU; subst. simpl in Ha. inversion Ha; subst.
      split; [reflexivity|]. exists k. auto. }
    destruct (tea.String k =? "esc").
    { destruct (tui.list_FilterState (tui.list m));
        try (inversion HU; subst; simpl in Ha; inversion Ha; subst;
             split; [reflexivity|]; exists k; now auto).
      elim (Hlist _ HU). }
    destruct (tea.String k =? "enter").
    { unfold tui.handleSelect in HU.
      destruct (tui.list_SelectedItem (tui.list m)) as [i|] eqn:Ei.
      - inversion HU; subst. simpl in Ha. inversion Ha; subst.
        split; [reflexivity|]. exists k. split; [reflexivity|].
        right; left. split; [reflexivity|]. exists i. auto.
      - destruct (String.eqb_spec (tui.list_FilterValue (tui.list m)) "") as [E0|E0];
          simpl in HU; inversion HU; subst; [congruence|].
        simpl in Ha. inversion Ha; subst.
        split; [reflexivity|]. exists k. split; [reflexivity|].
        right; right; left. auto. }
    destruct (tea.String k =? "ctrl+d").
    { unfold tui.handleDelete in HU.
      destruct (tui.list_SelectedItem (tui.list m));
        inversion HU; subst; simpl in Ha; congruence. }
    destruct (tea.String k =? "ctrl+n").
    { unfold tui.handleCreateNew in HU.
      destruct (String.eqb_spec (tui.list_FilterValue (tui.list m)) "") as [E0|E0];
        inversion HU; subst; [congruence|].
      simpl in Ha. inversion Ha; subst.
      split; [reflexivity|]. exists k. split; [reflexivity|].
      right; right; left. auto. }
    elim (Hlist _ HU).
  - unfold tui.handleDeleteConfirmKey in HU.
    destruct (tea.Type_ k) eqn:Ek;
      try (inversion HU; subst; simpl in Ha; congruence).
    + destruct (String.eqb_spec (tui.deleteConfirm m) "YES") as [E0|E0];
        inversion HU; subst; simpl in Ha; [|congruence].
      inversion Ha; subst.
      split; [reflexivity|]. exists k. split; [reflexivity|].
      right; right; right. auto.
    + destruct (0 <? String.length (tui.deleteConfirm m))%nat;
        inversion HU; subst; simpl in Ha; congruence.
Qed.

(** A step that does not quit sets neither an action nor an error, and no
    step changes the base path. *)
Lemma Update_keeps m msg m' cmd :
  tui.Update m msg = (m', cmd) ->
  tui.basePath m' = tui.basePath m
  /\ (cmd <> tea.Quit -> tui.action m' = tui.action m /\ tui.err m' = tui.err m).
Proof.
  intros HU.
  assert (Hlist : forall msg0, tui.toList m msg0 = (m', cmd) ->
            tui.basePath m' = tui.basePath m
            /\ (cmd <> tea.Quit ->
                tui.action m' = tui.action m /\ tui.err m' = tui.err m)).
  { intros msg0 E. pose proof (toList_fields _ _ _ _ E) as (_ & _ & _ & Ea).
    pose proof (toList_more _ _ _ _ E) as (Ee & Eb). auto. }
  destruct msg as [k|w h|es|e|id]; simpl in HU;
    try (inversion HU; subst; simpl; split; [reflexivity|]; intros Hq;
         (congruence || auto));
    try (exact (Hlist _ HU)).
  unfold tui.handleKey in HU.
  destruct (tui.state m) eqn:Es.
  - destruct (tea.String k =? "ctrl+c");
      [inversion HU; subst; simpl; split; [reflexivity|congruence]|].
    destruct (tea.String k =? "esc").
    { destruct (tui.list_FilterState (tui.list m));
        try (inversion HU; subst; simpl; split; [reflexivity|congruence]).
      exact (Hlist _ HU). }
    destruct (tea.String k =? "enter").
    { unfold tui.handleSelect in HU.
      destruct (tui.list_SelectedItem (tui.list m));
        [inversion HU; subst; simpl; split; [reflexivity|congruence]|].
      destruct (negb _); inversion HU; subst; simpl;
        (split; [reflexivity|]; (congruence || auto)). }
    destruct (tea.String k =? "ctrl+d").
    { unfold tui.handleDelete in HU.
      destruct (tui.list_SelectedItem (tui.list m));
        inversion HU; subst; simpl; auto. }
    destruct (tea.String k =? "ctrl+n").
    { unfold tui.handleCreateNew in HU.
      destruct (tui.list_FilterValue (tui.list m) =? "");
        inversion HU; subst; simpl;
        (split; [reflexivity|]; (congruence || auto)). }
    exact (Hlist _ HU).
  - unfold tui.handleDeleteConfirmKey in HU.
    destruct (tea.Type_ k);
      try (inversion HU; subst; simpl; now auto).
    + destruct (tui.deleteConfirm m =? "YES");
        inversion HU; subst; simpl;
        (split; [reflexivity|]; (congruence || auto)).
    + destruct (0 <? String.length (tui.deleteConfirm m))%nat;
        inversion HU; subst; simpl; auto.
Qed.

End SessionFacts.

Lemma Reachable_quiet :
  forall (L : Type) (W : tui.ListModel L) (base : string) (query : option string)
         (m : tui.Model L),
    tui.Reachable (tui.New base query) m ->
    tui.action m = None /\ tui.err m = None /\ tui.basePath m = base.
Proof.
  intros L W base query m HR.
  induction HR as [|m msg m' cmd HR IH HU Hq]; [repeat split|].
  destruct IH as (Ha & He & Hb).
  destruct (Update_keeps _ _ _ _ HU) as (Hb' & Hkeep).
  destruct (Hkeep Hq) as (Ha' & He').
  repeat split; congruence.
Qed.

(** X11: While a session has not quit, no action and no error is set, and the
    base path is the one the session was started with. *)
Theorem nothing_emitted_before_quit :
  forall (L : Type) (W : tui.ListModel L) (base : string) (query : option string)
         (m : tui.Model L),
    tui.Reachable (tui.New base query) m ->
    tui.GetAction m = None /\ tui.err m = None /\ tui.basePath m = base.
Proof.
  intros L W base query m HR. unfold tui.GetAction.
  exact (Reachable_quiet L W base query m HR).
Qed.

Lemma nothing_emitted_before_quit_witness :
  tui.GetAction fixtures.confirming = None
  /\ tui.err fixtures.confirming = None
  /\ tui.basePath fixtures.confirming = "/tries".
Proof.
  apply (nothing_emitted_before_quit _ _ "/tries" None fixtures.confirming).
  exact confirming_Reachable.
Defined.

(** X12: The step that sets the action quits, and it is a key: in the selector
    state it cancels, or navigates to the selected row, or creates from a
    non-empty filter text; in the confirmation state it is Enter on the text
    YES and deletes the target.  The action is never a clone and never
    empty, and but for the cancel it carries the base path of the model. *)
Theorem action_set_by_Update :
  forall (L : Type) (W : tui.ListModel L) (m m' : tui.Model L) (msg : tui.Msg)
         (cmd : tea.Cmd) (a : tui.Action),
    tui.action m = None ->
    tui.Update m msg = (m', cmd) ->
    tui.GetAction m' = Some a ->
    cmd = tea.Quit
    /\ (exists k,
          msg = tui.KeyMsg k
          /\ ((tui.state m = tui.StateSelector /\ a = tui.cancel)
              \/ (tui.state m = tui.StateSelector
                  /\ exists i,
                       tui.list_SelectedItem (tui.list m) = Some i
                       /\ a = spec.cdIntent (workspace.Path (tui.entry i))
                                (tui.basePath m))
              \/ (tui.state m = tui.StateSelector
                  /\ tui.list_FilterValue (tui.list m) <> ""
                  /\ a = spec.createIntent (tui.list_FilterValue (tui.list m))
                           (tui.basePath m))
              \/ (tui.state m = tui.StateDeleteConfirm
                  /\ tea.Type_ k = tea.KeyEnter
                  /\ tui.deleteConfirm m = "YES"
                  /\ a = spec.deleteIntent (tui.deleteTarget m) (tui.basePath m))))
    /\ tui.Type_ a <> tui.ActionClone
    /\ tui.Type_ a <> tui.ActionNone
    /\ (tui.Type_ a <> tui.ActionCancel -> tui.BaseDir a = tui.basePath m).
Proof.
  intros L W m m' msg cmd a Hnone HU Ha.
  destruct (Update_sets_action m msg m' cmd a Hnone HU Ha) as (Hq & k & Hk & Hcases).
  split; [exact Hq|]. split; [exists k; auto|].
  destruct Hcases as [(_ & ->)|[(_ & i & _ & ->)|[(_ & _ & ->)|(_ & _ & _ & ->)]]];
    simpl; repeat split; congruence.
Qed.

Lemma action_set_by_Update_witness :
  tui.Type_ tui.cancel <> tui.ActionClone
  /\ tui.Type_ tui.cancel <> tui.ActionNone.
Proof.
  destruct (action_set_by_Update _ _ fixtures.loaded
              (tui.setAction fixtures.loaded tui.cancel)
              (fixtures.press tea.KeyCtrlC) tea.Quit tui.cancel
              eq_refl eq_refl eq_refl)
    as (_ & _ & H1 & H2 & _).
  split; [exact H1|exact H2].
Defined.

(** X13: A delete action is only ever set in the confirmation state, by Enter
    on the text YES; its base directory is the session's, and the one path
    it names is the path of the row that was selected when, in this same
    session, [ctrl+d] was pressed in the selector and the session then
    stayed in the confirmation state until that Enter, the messages in
    between having typed YES. *)
Theorem Delete_intent_names_selected_row :
  forall (L : Type) (W : tui.ListModel L) (base : string) (query : option string)
         (msgs : list tui.Msg) (m m' : tui.Model L) (msg : tui.Msg)
         (cmd : tea.Cmd) (a : tui.Action),
    tui.run (tui.New base query) msgs = (m, false) ->
    tui.Update m msg = (m', cmd) ->
    tui.GetAction m' = Some a ->
    tui.Type_ a = tui.ActionDelete ->
    tui.state m = tui.StateDeleteConfirm
    /\ tui.deleteConfirm m = "YES"
    /\ tui.BaseDir a = base
    /\ exists pre key post m1 i,
         msgs = (pre ++ tui.KeyMsg key :: post)%list
         /\ tea.String key = "ctrl+d"
         /\ tui.run (tui.New base query) pre = (m1, false)
         /\ tui.state m1 = tui.StateSelector
         /\ tui.list_SelectedItem (tui.list m1) = Some i
         /\ (forall done rest,
               post = (done ++ rest)%list ->
               tui.state (fst (tui.run (tui.New base query)
                                 (pre ++ tui.KeyMsg key :: done)))
               = tui.StateDeleteConfirm)
         /\ tui.Paths a = [workspace.Path (tui.entry i)]
         /\ fold_left spec.edit post "" = "YES".
Proof.
  intros L W base query msgs m m' msg cmd a Hrun HU Ha Hdel.
  assert (HR : tui.Reachable (tui.New base query) m).
  { eapply run_Reachable; [apply tui.reach_init|exact Hrun]. }
  destruct (Reachable_quiet L W base query m HR) as (Hnone & _ & Hbase).
  destruct (Update_sets_action m msg m' cmd a Hnone HU Ha) as (_ & k & _ & Hcases).
  destruct Hcases as [(_ & ->)|[(_ & i & _ & ->)|[(_ & _ & ->)|(Hs & _ & Hyes & ->)]]];
    try discriminate Hdel.
  split; [exact Hs|]. split; [exact Hyes|]. split; [exact Hbase|].
  destruct (pending_confirmation (tui.New base query) eq_refl msgs m Hrun Hs)
    as (pre & key & post & m1 & i & E & Hk & E1 & S1 & Sel & Hst & Et & Ec).
  exists pre, key, post, m1, i. simpl. rewrite Et.
  repeat split; auto. congruence.
Qed.

(** On the folder of the tests: load, [ctrl+d] on the first row, the three
    letters, Enter. *)
Lemma Delete_intent_names_selected_row_witness :
  exists pre key post m1 i,
    [tui.loadEntries fixtures.triesFS fixtures.session0;
     fixtures.press tea.KeyCtrlD;
     fixtures.type "Y"; fixtures.type "E"; fixtures.type "S"]
    = (pre ++ tui.KeyMsg key :: post)%list
    /\ tea.String key = "ctrl+d"
    /\ tui.run (tui.New "/tries" None) pre = (m1, false)
    /\ tui.state m1 = tui.StateSelector
    /\ tui.list_SelectedItem (tui.list m1) = Some i
    /\ (forall done rest,
          post = (done ++ rest)%list ->
          tui.state (fst (tui.run (tui.New "/tries" None)
                            (pre ++ tui.KeyMsg key :: done)))
          = tui.StateDeleteConfirm)
    /\ ["/tries/2024-01-20-project-b"] = [workspace.Path (tui.entry i)]
    /\ fold_left spec.edit post "" = "YES".
Proof.
  destruct (Delete_intent_names_selected_row _ _ "/tries" None
              [tui.loadEntries fixtures.triesFS fixtures.session0;
               fixtures.press tea.KeyCtrlD;
               fixtures.type "Y"; fixtures.type "E"; fixtures.type "S"]
              fixtures.typedYES
              (tui.setAction fixtures.typedYES
                 (spec.deleteIntent "/tries/2024-01-20-project-b" "/tries"))
              fixtures.enter tea.Quit
              (spec.deleteIntent "/tries/2024-01-20-project-b" "/tries"))
    as (_ & _ & _ & H); try reflexivity.
  exact H.
Defined.

(* ------------------------------------------------------------------ *)
(** ** Typing the confirmation                                         *)
(* ------------------------------------------------------------------ *)

Lemma substring_prefix (t r : string) :
  substring 0 (String.length t) (t ++ r) = t.
Proof.
  induction t as [|c t IH]; cbn [String.length append substring].
  - destruct r; reflexivity.
  - now rewrite IH.
Qed.

Lemma dropLast_snoc (t : string) (c : ascii) :
  tui.dropLast (t ++ String c "") = t.
Proof.
  unfold tui.dropLast. rewrite append_length. cbn [String.length].
  replace (String.length t + 1 - 1)%nat with (String.length t) by lia.
  apply substring_prefix.
Qed.

Section Confirming.
Context {L : Type} `{tui.ListModel L}.
Implicit Types m : tui.Model L.

Lemma typing_step m k :
  tui.state m = tui.StateDeleteConfirm ->
  tea.Type_ k = tea.KeyRunes ->
  tui.Update m (tui.KeyMsg k)
  = (tui.setDeleteConfirm m (tui.deleteConfirm m ++ tea.Runes k), tea.Nil).
Proof.
  intros Hs Hk. simpl. unfold tui.handleKey. rewrite Hs.
  unfold tui.handleDeleteConfirmKey. now rewrite Hk.
Qed.

Lemma typing_run (keys : list tea.Key) :
  forall m,
    tui.state m = tui.StateDeleteConfirm ->
    Forall (fun k => tea.Type_ k = tea.KeyRunes) keys ->
    exists m',
      tui.run m (map tui.KeyMsg keys) = (m', false)
      /\ tui.state m' = tui.StateDeleteConfirm
      /\ tui.deleteConfirm m' = tui.deleteConfirm m ++ spec.typed keys
      /\ tui.deleteTarget m' = tui.deleteTarget m
      /\ tui.basePath m' = tui.basePath m
      /\ tui.list m' = tui.list m
      /\ tui.action m' = tui.action m.
Proof.
  induction keys as [|k keys IH]; intros m Hs Hall.
  - exists m. cbn. rewrite append_nil_r. auto 10.
  - inversion Hall as [|? ? Hk Hrest]; subst.
    cbn [map tui.run]. rewrite (typing_step m k Hs Hk).
    destruct (IH (tui.setDeleteConfirm m (tui.deleteConfirm m ++ tea.Runes k))
                Hs Hrest) as (m' & Hrun & Hs' & Hc & Ht & Hb & Hl & Ha).
    exists m'. cbn in *. rewrite append_assoc in Hc. auto 10.
Qed.

End Confirming.

(** X14: In the confirmation state, keys that carry text append it to the
    confirmation and change nothing else; whenever the pieces typed since
    the state was entered spell YES, however they are split over the keys,
    Enter then quits with the delete of the target. *)
Theorem typed_YES_then_Enter_deletes :
  forall (L : Type) (W : tui.ListModel L) (m : tui.Model L)
         (keys : list tea.Key) (enterKey : tea.Key),
    tui.state m = tui.StateDeleteConfirm ->
    tui.deleteConfirm m = "" ->
    Forall (fun k => tea.Type_ k = tea.KeyRunes) keys ->
    spec.typed keys = "YES" ->
    tea.Type_ enterKey = tea.KeyEnter ->
    exists m',
      tui.run m (map tui.KeyMsg keys ++ [tui.KeyMsg enterKey]) = (m', true)
      /\ tui.GetAction m'
         = Some (spec.deleteIntent (tui.deleteTarget m) (tui.basePath m)).
Proof.
  intros L W m keys enterKey Hs Hc Hall Htyped Hk.
  destruct (typing_run keys m Hs Hall)
    as (m1 & Hrun & Hs1 & Hc1 & Ht1 & Hb1 & _ & _).
  rewrite (run_app _ _ _ _ Hrun). cbn [tui.run tui.Update].
  unfold tui.handleKey. rewrite Hs1. unfold tui.handleDeleteConfirmKey.
  rewrite Hc, Htyped in Hc1. rewrite Hk, Hc1. cbn.
  eexists. split; [reflexivity|]. cbn. now rewrite Ht1, Hb1.
Qed.

Lemma typed_YES_then_Enter_deletes_witness :
  exists m',
    tui.run fixtures.confirming
      (map tui.KeyMsg
         [ {| tea.Type_ := tea.KeyRunes; tea.Runes := "YE"; tea.Alt := false;
              tea.Paste := true |};
           {| tea.Type_ := tea.KeyRunes; tea.Runes := "S"; tea.Alt := false;
              tea.Paste := false |} ]
       ++ [fixtures.enter]) = (m', true)
    /\ tui.GetAction m'
       = Some (spec.deleteIntent "/tries/2024-01-20-project-b" "/tries").
Proof.
  apply (typed_YES_then_Enter_deletes _ _ fixtures.confirming
           [ {| tea.Type_ := tea.KeyRunes; tea.Runes := "YE"; tea.Alt := false;
                tea.Paste := true |};
             {| tea.Type_ := tea.KeyRunes; tea.Runes := "S"; tea.Alt := false;
                tea.Paste := false |} ]
           fixtures.enterKey); try reflexivity.
  repeat constructor.
Defined.

(** X15: In the confirmation state Backspace removes the last byte of the text,
    and only that; on an empty text it changes nothing.  It never quits and
    never leaves the state. *)
Theorem Backspace_removes_last_byte :
  forall (L : Type) (W : tui.ListModel L) (m : tui.Model L) (k : tea.Key),
    tui.state m = tui.StateDeleteConfirm ->
    tea.Type_ k = tea.KeyBackspace ->
    exists m',
      tui.Update m (tui.KeyMsg k) = (m', tea.Nil)
      /\ tui.state m' = tui.StateDeleteConfirm
      /\ tui.deleteTarget m' = tui.deleteTarget m
      /\ (tui.deleteConfirm m = "" -> m' = m)
      /\ (forall t c, tui.deleteConfirm m = t ++ String c "" ->
                      tui.deleteConfirm m' = t).
Proof.
  intros L W m k Hs Hk. simpl. unfold tui.handleKey. rewrite Hs.
  unfold tui.handleDeleteConfirmKey. rewrite Hk.
  destruct (0 <? String.length (tui.deleteConfirm m))%nat eqn:El.
  - eexists. split; [reflexivity|].
    unfold tui.setDeleteConfirm, tui.setDelete.
    cbn [tui.state tui.deleteTarget tui.deleteConfirm].
    repeat split; auto.
    + intros E0. rewrite E0 in El. discriminate El.
    + intros t c E. rewrite E. apply dropLast_snoc.
  - exists m. repeat split; auto.
    intros t c E. rewrite E, append_length in El.
    apply Nat.ltb_ge in El. cbn in El. lia.
Qed.

Lemma Backspace_removes_last_byte_witness :
  exists m',
    tui.Update fixtures.typedYES (fixtures.press tea.KeyBackspace) = (m', tea.Nil)
    /\ tui.deleteConfirm m' = "YE".
Proof.
  destruct (Backspace_removes_last_byte _ _ fixtures.typedYES
              {| tea.Type_ := tea.KeyBackspace; tea.Runes := ""; tea.Alt := false;
                 tea.Paste := false |} eq_refl eq_refl)
    as (m' & HU & _ & _ & _ & Hlast).
  exists m'. split; [exact HU|]. apply (Hlast "YE" "S"%char). reflexivity.
Defined.

(** X16: While the deletion awaits its confirmation no key reaches the list:
    whatever the key, the list widget and the entries are as before, and
    the only command is none or quit. *)
Theorem keys_do_not_reach_list_while_confirming :
  forall (L : Type) (W : tui.ListModel L) (m m' : tui.Model L) (k : tea.Key)
         (cmd : tea.Cmd),
    tui.state m = tui.StateDeleteConfirm ->
    tui.Update m (tui.KeyMsg k) = (m', cmd) ->
    tui.list m' = tui.list m /\ tui.entries m' = tui.entries m
    /\ (cmd = tea.Nil \/ cmd = tea.Quit).
Proof.
  intros L W m m' k cmd Hs HU. simpl in HU. unfold tui.handleKey in HU.
  rewrite Hs in HU. unfold tui.handleDeleteConfirmKey in HU.
  destruct (tea.Type_ k); try (inversion HU; subst; simpl; now auto).
  - destruct (tui.deleteConfirm m =? "YES"); inversion HU; subst; simpl; auto.
  - destruct (0 <? String.length (tui.deleteConfirm m))%nat;
      inversion HU; subst; simpl; auto.
Qed.

Lemma keys_do_not_reach_list_while_confirming_witness :
  tui.list (fst (tui.Update fixtures.confirming (fixtures.press tea.KeyDown)))
  = tui.list fixtures.confirming.
Proof.
  apply (keys_do_not_reach_list_while_confirming _ _ fixtures.confirming
           (fst (tui.Update fixtures.confirming (fixtures.press tea.KeyDown)))
           {| tea.Type_ := tea.KeyDown; tea.Runes := ""; tea.Alt := false;
              tea.Paste := false |} tea.Nil eq_refl eq_refl).
Defined.

(* ------------------------------------------------------------------ *)
(** ** The initial query                                               *)
(* ------------------------------------------------------------------ *)

Section InitialQuery.
Context {L : Type} `{tui.ListModel L}.
Implicit Types m : tui.Model L.

Lemma Update_withQuery m msg q :
  tui.Update (spec.withQuery m q) msg
  = (spec.withQuery (fst (tui.Update m msg)) q, snd (tui.Update m msg)).
Proof.
  destruct msg as [k|w h|es|e|id]; simpl;
    try reflexivity;
    try (unfold tui.toList; cbn [spec.withQuery tui.list];
         destruct (tui.list_Update (tui.list m) _); reflexivity).
  unfold tui.handleKey. cbn [spec.withQuery tui.state].
  destruct (tui.state m).
  - destruct (tea.String k =? "ctrl+c"); [reflexivity|].
    destruct (tea.String k =? "esc").
    { cbn [spec.withQuery tui.list].
      destruct (tui.list_FilterState (tui.list m)); try reflexivity.
      unfold tui.toList; cbn [spec.withQuery tui.list];
        destruct (tui.list_Update (tui.list m) _); reflexivity. }
    destruct (tea.String k =? "enter").
    { unfold tui.handleSelect. cbn [spec.withQuery tui.list].
      destruct (tui.list_SelectedItem (tui.list m)); [reflexivity|].
      destruct (negb _); reflexivity. }
    destruct (tea.String k =? "ctrl+d").
    { unfold tui.handleDelete. cbn [spec.withQuery tui.list].
      destruct (tui.list_SelectedItem (tui.list m)); reflexivity. }
    destruct (tea.String k =? "ctrl+n").
    { unfold tui.handleCreateNew. cbn [spec.withQuery tui.list].
      destruct (tui.list_FilterValue (tui.list m) =? ""); reflexivity. }
    unfold tui.toList; cbn [spec.withQuery tui.list];
      destruct (tui.list_Update (tui.list m) _); reflexivity.
  - unfold tui.handleDeleteConfirmKey. cbn [spec.withQuery tui.deleteConfirm].
    destruct (tea.Type_ k); try reflexivity.
    + destruct (tui.deleteConfirm m =? "YES"); reflexivity.
    + destruct (0 <? String.length (tui.deleteConfirm m))%nat; reflexivity.
Qed.

Lemma run_withQuery (msgs : list tui.Msg) :
  forall m q,
    tui.run (spec.withQuery m q) msgs
    = (spec.withQuery (fst (tui.run m msgs)) q, snd (tui.run m msgs)).
Proof.
  induction msgs as [|msg rest IH]; intros m q; [reflexivity|].
  cbn [tui.run]. rewrite Update_withQuery.
  destruct (tui.Update m msg) as [m1 c]. cbn [fst snd].
  destruct c; try reflexivity; apply IH.
Qed.

End InitialQuery.

(** X17: The initial query is stored, with its spaces turned into dashes, and
    read by nothing: a session started with a query passes through the
    same states, list, action and error, message for message, as one
    started without. *)
Theorem initial_query_is_never_used :
  forall (L : Type) (W : tui.ListModel L) (base q : string) (msgs : list tui.Msg),
    tui.run (tui.New base (Some q)) msgs
    = (spec.withQuery (fst (tui.run (tui.New base None) msgs))
         (strings.ReplaceAll q " " "-"),
       snd (tui.run (tui.New base None) msgs)).
Proof.
  intros L W base q msgs.
  change (tui.New base (Some q))
    with (spec.withQuery (tui.New base None) (strings.ReplaceAll q " " "-")).
  apply run_withQuery.
Qed.

(* ------------------------------------------------------------------ *)
(** ** Dimming the date of a row                                       *)
(* ------------------------------------------------------------------ *)

Lemma substring_all (s : string) : substring 0 (String.length s) s = s.
Proof.
  induction s as [|c s IH]; [reflexivity|].
  cbn [String.length substring]. now rewrite IH.
Qed.

(** X18: A name the date pattern of [Scan] matches, with something after the
    date, is shown with exactly its first eleven bytes dimmed and the rest
    as it is; a name of eleven bytes or fewer is never dimmed, the bare
    date prefix included. *)
Theorem renderNameWithDim_on_dated_names :
  forall (dimmed : string -> string) (name : string),
    (regexp.MatchString workspace.datePrefix name = true ->
     (11 < String.length name)%nat ->
     exists date rest,
       name = date ++ rest /\ String.length date = 11%nat
       /\ tui.renderNameWithDim dimmed name = dimmed date ++ rest)
    /\ ((String.length name <= 11)%nat ->
        tui.renderNameWithDim dimmed name = name).
Proof.
  intros dimmed name. split.
  - intros Hm Hlen. apply datePrefix_match in Hm.
    destruct Hm as (y1 & y2 & y3 & y4 & m1 & m2 & d1 & d2 & rest & -> & _).
    eexists (String y1 (String y2 (String y3 (String y4 (String "-"
               (String m1 (String m2 (String "-"
                 (String d1 (String d2 (String "-" ""))))))))))), rest.
    split; [reflexivity|]. split; [reflexivity|].
    unfold tui.renderNameWithDim.
    replace (11 <? String.length _)%nat with true
      by (symmetry; apply Nat.ltb_lt; exact Hlen).
    cbn [tui.byteAt String.get Ascii.eqb Bool.eqb andb String.length
         substring Nat.sub].
    rewrite Nat.sub_0_r, substring_all.
    replace (substring 0 0 rest) with "" by (destruct rest; reflexivity).
    reflexivity.
  - intros Hlen. unfold tui.renderNameWithDim.
    replace (11 <? String.length name)%nat with false
      by (symmetry; apply Nat.ltb_ge; exact Hlen).
    reflexivity.
Qed.

Lemma renderNameWithDim_on_dated_names_witness :
  (exists date rest,
     "2024-01-15-project-a" = date ++ rest /\ String.length date = 11%nat
     /\ tui.renderNameWithDim (fun s => "<" ++ s ++ ">") "2024-01-15-project-a"
        = (fun s => "<" ++ s ++ ">") date ++ rest)
  /\ tui.renderNameWithDim (fun s => "<" ++ s ++ ">") "2024-01-15-" = "2024-01-15-".
Proof.
  split.
  - apply (proj1 (renderNameWithDim_on_dated_names
                    (fun s => "<" ++ s ++ ">") "2024-01-15-project-a"));
      [reflexivity|cbn; lia].
  - apply (proj2 (renderNameWithDim_on_dated_names
                    (fun s => "<" ++ s ++ ">") "2024-01-15-")).
    cbn; lia.
Defined.

(* ------------------------------------------------------------------ *)
(** ** From the action to the script                                   *)
(* ------------------------------------------------------------------ *)



(** X20: [handleClone] fails on every URL that [ParseGitURL] rejects, also one
    that [IsGitURL] let through; on a URL that parses it prints the clone
    script for the base path, a separator and the first free candidate of
    the clone directory name. *)
Theorem handleClone_outcome :
  forall (fs : os.FS) (basePath url : string),
    (forall err fuel,
       workspace.ParseGitURL url = os.Err err ->
       cli.handleClone fuel fs basePath url
       = Some (cli.Failed (os.Wrapf "failed to parse git URL: " err)))
    /\ (forall dirName k fuel,
          workspace.CloneDirName fs url = os.Ok dirName ->
          spec.firstFree fs basePath dirName k ->
          (k < fuel)%nat ->
          cli.handleClone fuel fs basePath url
          = Some (cli.Printed
                    (shell.Clone (basePath ++ "/" ++ spec.candidate dirName k) url))).
Proof.
  intros fs basePath url. split.
  - intros err fuel E.
    unfold cli.handleClone, workspace.CloneScript, workspace.CloneDirName.
    now rewrite E.
  - intros dirName k fuel E Hff Hfuel.
    unfold cli.handleClone, workspace.CloneScript. rewrite E.
    now rewrite (uniqueName_firstFree _ _ _ _ _ Hff Hfuel).
Qed.

Lemma handleClone_outcome_witness :
  workspace.IsGitURL "notes.git" = true
  /\ cli.handleClone 0 fixtures.emptyFS "/tries" "notes.git"
     = Some (cli.Failed
               (os.Wrapf "failed to parse git URL: "
                  (os.Errorf "unable to parse git URL: notes"))).
Proof.
  split; [reflexivity|].
  apply (proj1 (handleClone_outcome fixtures.emptyFS "/tries" "notes.git")).
  reflexivity.
Defined.
